(** * Media ingestion and retrieval of the music-streaming application

    A shallow embedding of [utils.py] ([allowed_file],
    [handle_avatar_upload], [process_track_upload],
    [get_file_stream_response], [storage_delete]) and of views of
    [app.py] ([upload], [stream], [preview], [follow], [unfollow],
    [favorite], [unfavorite], [playlist_add_track]), followed by the
    properties of the ingestion pipeline, of its storage handling and of
    these views.

    Python values are modelled as follows: [str] as [string] (ASCII; the
    case mapping of [str.lower] is the ASCII one), [bytes] as
    [list Byte.byte], [None]-able attributes as [option], the
    [ALLOWED_EXTENSIONS] set as a [gset string], the filesystem and the
    S3 bucket as [gmap]s, exceptions as an explicit result type, and the
    side effects of a request as state passing over a [World]. *)

From Stdlib Require Import ZArith Ascii String List Lia.
From stdpp Require Import base option list functions strings gmap pretty.

Local Open Scope string_scope.

(** ** Results of Python computations *)

Inductive exn : Type :=
  | IndexError            (* [seq[i]] out of range *)
  | CouldntDecodeError    (* pydub: the input cannot be decoded *)
  | CouldntEncodeError    (* pydub: the export failed *)
  | OSError               (* filesystem operation failed *)
  | ClientError           (* boto3: S3 request failed *)
  | SQLAlchemyError       (* database flush or commit failed *)
  | NotFound              (* [get_or_404] found no row: HTTP 404 *)
  | NameError (name : string). (* a global name that is not bound *)

Inductive res (A : Type) : Type :=
  | Ok (a : A)
  | Raise (e : exn).
Arguments Ok {A} a.
Arguments Raise {A} e.

#[global] Instance exn_eq_dec : EqDecision exn.
Proof. solve_decision. Defined.

(** ** Python string and truthiness primitives *)

(** Python [bytes]. *)
Definition bytes : Type := list Byte.byte.

Module Py.

(** [c.lower()] on one ASCII character. *)
Definition lower_char (c : ascii) : ascii :=
  let n := nat_of_ascii c in
  if (65 <=? n)%nat && (n <=? 90)%nat then ascii_of_nat (n + 32) else c.

(** [s.lower()] *)
Fixpoint lower (s : string) : string :=
  match s with
  | EmptyString => EmptyString
  | String c r => String (lower_char c) (lower r)
  end.

(** [c in s] for a one-character [c]. *)
Fixpoint contains (c : ascii) (s : string) : bool :=
  match s with
  | EmptyString => false
  | String d r => if Ascii.eqb d c then true else contains c r
  end.

(** The split of [s] at the last occurrence of [sep], if there is one:
    the part before it and the part after it. *)
Fixpoint rsplit_last (sep : ascii) (s : string) : option (string * string) :=
  match s with
  | EmptyString => None
  | String c r =>
      match rsplit_last sep r with
      | Some (h, t) => Some (String c h, t)
      | None => if Ascii.eqb c sep then Some (EmptyString, r) else None
      end
  end.

(** [s.rsplit(sep, 1)]: at most one split, made from the right. *)
Definition rsplit1 (sep : ascii) (s : string) : list string :=
  match rsplit_last sep s with
  | Some (h, t) => [h; t]
  | None => [s]
  end.

(** [l[i]], raising [IndexError] out of range. *)
Definition index {A} (l : list A) (i : nat) : res A :=
  match l !! i with
  | Some x => Ok x
  | None => Raise IndexError
  end.

(** Truth value of an optional string or bytes attribute: [None] and
    the empty value are false. *)
Definition truthy_str (o : option string) : bool :=
  match o with
  | Some (String _ _) => true
  | _ => false
  end.

Definition truthy_bytes (o : option bytes) : bool :=
  match o with
  | Some (_ :: _) => true
  | _ => false
  end.

(** [a or b] on optional strings. *)
Definition or_str (a b : option string) : option string :=
  if truthy_str a then a else b.

(** [a or d] with a string literal [d]. *)
Definition or_default (a : option string) (d : string) : string :=
  if truthy_str a then default d a else d.

(** The characters of a string, for stating membership. *)
Fixpoint chars (s : string) : list ascii :=
  match s with
  | EmptyString => []
  | String c r => c :: chars r
  end.

(** [seq[:stop]]: Python's slice from the start, which pydub follows
    for [audio[:ms]]; a negative [stop] counts from the end. *)
Definition slice_to {A} (l : list A) (stop : Z) : list A :=
  if (stop <? 0)%Z
  then take (Z.to_nat (Z.of_nat (length l) + stop)) l
  else take (Z.to_nat stop) l.

(** [os.path.basename(p)] *)
Definition basename (p : string) : string :=
  match rsplit_last "/" p with
  | Some (_, t) => t
  | None => p
  end.

(** One lower-case hexadecimal digit. *)
Definition hex_digit (n : N) : ascii :=
  match nth_error (chars "0123456789abcdef") (N.to_nat n) with
  | Some c => c
  | None => "0"%char
  end.

Fixpoint hex_digits (k : nat) (n : N) (acc : string) : string :=
  match k with
  | O => acc
  | S k' => hex_digits k' (n / 16)%N (String (hex_digit (n mod 16)%N) acc)
  end.

(** [uuid.UUID(int=n).hex]: 32 hexadecimal digits. *)
Definition hex32 (n : N) : string := hex_digits 32 n "".

End Py.

(** ** Data model *)

(** The columns of [Track] (models.py) that the pipeline uses. A column
    that is [None] on the Python object is [None] here. *)
Record Track : Type := mkTrack {
  owner_id : Z;
  title : string;
  description : string;
  duration : option Z;
  mime_type : option string;
  original_filename : option string;
  (* STORAGE_MODE == 'local': path strings *)
  file_path : option string;
  mp3_path : option string;
  preview_path : option string;
  (* STORAGE_MODE == 'postgres': binary fields *)
  original_file : option bytes;
  mp3_file : option bytes;
  preview_file : option bytes;
  (* S3: keys *)
  s3_key : option string;
  s3_mp3_key : option string;
  s3_preview_key : option string
}.

(** [Track(owner_id=..., title=..., description=...)] *)
Definition new_Track (o : Z) (ti de : string) : Track :=
  mkTrack o ti de None None None None None None None None None None None None.

(** Attribute assignments [track.x = v]. *)
Definition set_duration (v : option Z) (t : Track) : Track :=
  mkTrack (owner_id t) (title t) (description t) v (mime_type t)
    (original_filename t) (file_path t) (mp3_path t) (preview_path t)
    (original_file t) (mp3_file t) (preview_file t)
    (s3_key t) (s3_mp3_key t) (s3_preview_key t).
Definition set_mime_type (v : option string) (t : Track) : Track :=
  mkTrack (owner_id t) (title t) (description t) (duration t) v
    (original_filename t) (file_path t) (mp3_path t) (preview_path t)
    (original_file t) (mp3_file t) (preview_file t)
    (s3_key t) (s3_mp3_key t) (s3_preview_key t).
Definition set_original_filename (v : option string) (t : Track) : Track :=
  mkTrack (owner_id t) (title t) (description t) (duration t) (mime_type t)
    v (file_path t) (mp3_path t) (preview_path t)
    (original_file t) (mp3_file t) (preview_file t)
    (s3_key t) (s3_mp3_key t) (s3_preview_key t).
Definition set_file_path (v : option string) (t : Track) : Track :=
  mkTrack (owner_id t) (title t) (description t) (duration t) (mime_type t)
    (original_filename t) v (mp3_path t) (preview_path t)
    (original_file t) (mp3_file t) (preview_file t)
    (s3_key t) (s3_mp3_key t) (s3_preview_key t).
Definition set_mp3_path (v : option string) (t : Track) : Track :=
  mkTrack (owner_id t) (title t) (description t) (duration t) (mime_type t)
    (original_filename t) (file_path t) v (preview_path t)
    (original_file t) (mp3_file t) (preview_file t)
    (s3_key t) (s3_mp3_key t) (s3_preview_key t).
Definition set_preview_path (v : option string) (t : Track) : Track :=
  mkTrack (owner_id t) (title t) (description t) (duration t) (mime_type t)
    (original_filename t) (file_path t) (mp3_path t) v
    (original_file t) (mp3_file t) (preview_file t)
    (s3_key t) (s3_mp3_key t) (s3_preview_key t).
Definition set_original_file (v : option bytes) (t : Track) : Track :=
  mkTrack (owner_id t) (title t) (description t) (duration t) (mime_type t)
    (original_filename t) (file_path t) (mp3_path t) (preview_path t)
    v (mp3_file t) (preview_file t)
    (s3_key t) (s3_mp3_key t) (s3_preview_key t).
Definition set_mp3_file (v : option bytes) (t : Track) : Track :=
  mkTrack (owner_id t) (title t) (description t) (duration t) (mime_type t)
    (original_filename t) (file_path t) (mp3_path t) (preview_path t)
    (original_file t) v (preview_file t)
    (s3_key t) (s3_mp3_key t) (s3_preview_key t).
Definition set_preview_file (v : option bytes) (t : Track) : Track :=
  mkTrack (owner_id t) (title t) (description t) (duration t) (mime_type t)
    (original_filename t) (file_path t) (mp3_path t) (preview_path t)
    (original_file t) (mp3_file t) v
    (s3_key t) (s3_mp3_key t) (s3_preview_key t).
Definition set_s3_key (v : option string) (t : Track) : Track :=
  mkTrack (owner_id t) (title t) (description t) (duration t) (mime_type t)
    (original_filename t) (file_path t) (mp3_path t) (preview_path t)
    (original_file t) (mp3_file t) (preview_file t)
    v (s3_mp3_key t) (s3_preview_key t).
Definition set_s3_mp3_key (v : option string) (t : Track) : Track :=
  mkTrack (owner_id t) (title t) (description t) (duration t) (mime_type t)
    (original_filename t) (file_path t) (mp3_path t) (preview_path t)
    (original_file t) (mp3_file t) (preview_file t)
    (s3_key t) v (s3_preview_key t).
Definition set_s3_preview_key (v : option string) (t : Track) : Track :=
  mkTrack (owner_id t) (title t) (description t) (duration t) (mime_type t)
    (original_filename t) (file_path t) (mp3_path t) (preview_path t)
    (original_file t) (mp3_file t) (preview_file t)
    (s3_key t) (s3_mp3_key t) v.

(** [app.config]: the options of [BaseConfig] (config.py) that the
    pipeline reads. There is one bucket, [S3_BUCKET]; the credentials
    play no role in the model. *)
Record Config : Type := mkConfig {
  STORAGE_MODE : string;
  UPLOAD_FOLDER : string;
  PREVIEW_DURATION : Z;
  TRANSCODE_BITRATE : string;
  ALLOWED_EXTENSIONS : gset string
}.

(** The defaults of [BaseConfig]. *)
Definition BaseConfig : Config :=
  {| STORAGE_MODE := "local";
     UPLOAD_FOLDER := "uploads";
     PREVIEW_DURATION := 30;
     TRANSCODE_BITRATE := "192k";
     ALLOWED_EXTENSIONS := {[ "mp3"; "wav"; "flac"; "m4a"; "ogg"; "aac" ]} |}.

Definition with_mode (mode : string) (c : Config) : Config :=
  mkConfig mode (UPLOAD_FOLDER c) (PREVIEW_DURATION c) (TRANSCODE_BITRATE c)
    (ALLOWED_EXTENSIONS c).

Definition with_preview (d : Z) (c : Config) : Config :=
  mkConfig (STORAGE_MODE c) (UPLOAD_FOLDER c) d (TRANSCODE_BITRATE c)
    (ALLOWED_EXTENSIONS c).

(** werkzeug's [FileStorage]: the declared name and the uploaded bytes. *)
Record FileStorage : Type := mkFileStorage {
  fs_filename : string;
  fs_stream : bytes
}.

(** pydub's [AudioSegment] at the granularity of its own indexing: one
    entry per millisecond of decoded audio, so that [len(audio)] is the
    duration in milliseconds and [audio[:n]] is the leading [n] ms. *)
Definition AudioSegment : Type := list Z.

(** The libraries the pipeline calls and that are no part of this
    repository: werkzeug's [secure_filename], pydub's decoder
    ([AudioSegment.from_file(io.BytesIO(b), format=ext)]) and encoder
    ([seg.export(io, format=f, bitrate=r)] followed by [io.getvalue()]).
    Decoder and encoder fail by returning [None]. *)
Class External : Type := mkExternal {
  secure_filename : string → string;
  from_file : bytes → string → option AudioSegment;
  export : AudioSegment → string → string → option bytes
}.

(** An object stored in the bucket: body and content type. *)
Record S3Object : Type := mkS3Object {
  s3_body : bytes;
  s3_content_type : string
}.

(** ** The world a request runs in *)

Record World : Type := mkWorld {
  w_files : gmap string bytes;       (* regular files of the filesystem *)
  w_bucket : gmap string S3Object;   (* objects of the S3 bucket *)
  w_heap : nat → Track;              (* Track objects, by reference *)
  w_next_ref : nat;                  (* next fresh reference *)
  w_session : list nat;              (* objects attached to [db.session] *)
  w_rows : gmap nat Track;           (* committed rows of table tracks *)
  w_stream_pos : nat;                (* read position of the upload stream *)
  w_uuids : nat;                     (* number of [uuid4()] calls so far *)
  w_entropy : nat → N;               (* the values [uuid4()] draws *)
  w_clock : nat;                     (* number of fallible I/O calls so far *)
  w_faults : nat → bool;             (* which of these calls fail *)
  w_log : list string;               (* logger output *)
  w_flashes : list (string * string) (* flashed (message, category) *)
}.

Definition with_files (f : gmap string bytes → gmap string bytes) (w : World) : World :=
  mkWorld (f (w_files w)) (w_bucket w) (w_heap w) (w_next_ref w) (w_session w)
    (w_rows w) (w_stream_pos w) (w_uuids w) (w_entropy w) (w_clock w)
    (w_faults w) (w_log w) (w_flashes w).
Definition with_bucket (f : gmap string S3Object → gmap string S3Object) (w : World) : World :=
  mkWorld (w_files w) (f (w_bucket w)) (w_heap w) (w_next_ref w) (w_session w)
    (w_rows w) (w_stream_pos w) (w_uuids w) (w_entropy w) (w_clock w)
    (w_faults w) (w_log w) (w_flashes w).
Definition with_heap (f : (nat → Track) → nat → Track) (w : World) : World :=
  mkWorld (w_files w) (w_bucket w) (f (w_heap w)) (w_next_ref w) (w_session w)
    (w_rows w) (w_stream_pos w) (w_uuids w) (w_entropy w) (w_clock w)
    (w_faults w) (w_log w) (w_flashes w).
Definition with_next_ref (n : nat) (w : World) : World :=
  mkWorld (w_files w) (w_bucket w) (w_heap w) n (w_session w)
    (w_rows w) (w_stream_pos w) (w_uuids w) (w_entropy w) (w_clock w)
    (w_faults w) (w_log w) (w_flashes w).
Definition with_session (f : list nat → list nat) (w : World) : World :=
  mkWorld (w_files w) (w_bucket w) (w_heap w) (w_next_ref w) (f (w_session w))
    (w_rows w) (w_stream_pos w) (w_uuids w) (w_entropy w) (w_clock w)
    (w_faults w) (w_log w) (w_flashes w).
Definition with_rows (f : gmap nat Track → gmap nat Track) (w : World) : World :=
  mkWorld (w_files w) (w_bucket w) (w_heap w) (w_next_ref w) (w_session w)
    (f (w_rows w)) (w_stream_pos w) (w_uuids w) (w_entropy w) (w_clock w)
    (w_faults w) (w_log w) (w_flashes w).
Definition with_stream_pos (n : nat) (w : World) : World :=
  mkWorld (w_files w) (w_bucket w) (w_heap w) (w_next_ref w) (w_session w)
    (w_rows w) n (w_uuids w) (w_entropy w) (w_clock w)
    (w_faults w) (w_log w) (w_flashes w).
Definition with_uuids (n : nat) (w : World) : World :=
  mkWorld (w_files w) (w_bucket w) (w_heap w) (w_next_ref w) (w_session w)
    (w_rows w) (w_stream_pos w) n (w_entropy w) (w_clock w)
    (w_faults w) (w_log w) (w_flashes w).
Definition with_clock (n : nat) (w : World) : World :=
  mkWorld (w_files w) (w_bucket w) (w_heap w) (w_next_ref w) (w_session w)
    (w_rows w) (w_stream_pos w) (w_uuids w) (w_entropy w) n
    (w_faults w) (w_log w) (w_flashes w).
Definition with_log (f : list string → list string) (w : World) : World :=
  mkWorld (w_files w) (w_bucket w) (w_heap w) (w_next_ref w) (w_session w)
    (w_rows w) (w_stream_pos w) (w_uuids w) (w_entropy w) (w_clock w)
    (w_faults w) (f (w_log w)) (w_flashes w).
Definition with_flashes (f : list (string * string) → list (string * string)) (w : World) : World :=
  mkWorld (w_files w) (w_bucket w) (w_heap w) (w_next_ref w) (w_session w)
    (w_rows w) (w_stream_pos w) (w_uuids w) (w_entropy w) (w_clock w)
    (w_faults w) (w_log w) (f (w_flashes w)).

(** ** The monad of request handlers

    A computation takes the world and returns a value or raises, together
    with the world it leaves: the effects made before an exception stay. *)

Definition M (A : Type) : Type := World → res A * World.

#[global] Instance M_ret : MRet M := λ A a w, (Ok a, w).
#[global] Instance M_bind : MBind M := λ A B f m w,
  match m w with
  | (Ok a, w') => f a w'
  | (Raise e, w') => (Raise e, w')
  end.

Definition raise {A} (e : exn) : M A := λ w, (Raise e, w).

(** A pure computation that may raise. *)
Definition lift {A} (r : res A) : M A := λ w, (r, w).

(** [try: body except Exception as e: handler(e)] *)
Definition try_except {A} (body : M A) (handler : exn → M A) : M A := λ w,
  match body w with
  | (Ok a, w') => (Ok a, w')
  | (Raise e, w') => handler e w'
  end.

Definition modify (f : World → World) : M unit := λ w, (Ok tt, f w).

(** [for x in l: body(x)] *)
Fixpoint for_each {A} (l : list A) (body : A → M unit) : M unit :=
  match l with
  | [] => mret tt
  | x :: r => body x ;; for_each r body
  end.

(** A call that can fail for reasons outside the program: it fails with
    [e] when the fault oracle says so for this call. *)
Definition io (e : exn) : M unit := λ w,
  let w' := with_clock (S (w_clock w)) w in
  if w_faults w (w_clock w) then (Raise e, w') else (Ok tt, w').

(** *** Operations on the world *)

(** [str(e)]: one fixed message per class of exception. *)
Definition exn_str (e : exn) : string :=
  match e with
  | IndexError => "list index out of range"
  | CouldntDecodeError => "Decoding failed"
  | CouldntEncodeError => "Encoding failed"
  | OSError => "OSError"
  | ClientError => "ClientError"
  | SQLAlchemyError => "SQLAlchemyError"
  | NotFound => "404 Not Found"
  | NameError n => "name '" +:+ n +:+ "' is not defined"
  end.

Definition logger_exception (msg : string) : M unit :=
  modify (with_log (λ l, (l ++ [msg])%list)).

Definition flash (msg category : string) : M unit :=
  modify (with_flashes (λ l, (l ++ [(msg, category)])%list)).

(** [file_storage.read()]: the rest of the stream. *)
Definition read (f : FileStorage) : M bytes := λ w,
  (Ok (drop (w_stream_pos w) (fs_stream f)),
   with_stream_pos (length (fs_stream f)) w).

(** [uuid.uuid4().hex] *)
Definition uuid4_hex : M string := λ w,
  (Ok (Py.hex32 (w_entropy w (w_uuids w))), with_uuids (S (w_uuids w)) w).

(** [Path(a) / b] and [str] of it. *)
Definition path_join (a b : string) : string := a +:+ "/" +:+ b.

(** [p.mkdir(parents=True, exist_ok=True)]; directories are not kept in
    [w_files], which holds regular files only. *)
Definition mkdir (p : string) : M unit := io OSError.

(** [open(p, "wb")]: creates or truncates the file. *)
Definition open_wb (p : string) : M unit :=
  io OSError ;; modify (with_files (insert p [])).

(** [fh.write(data)] on the file just opened. *)
Definition write (p : string) (data : bytes) : M unit :=
  io OSError ;; modify (with_files (insert p data)).

(** [os.path.exists(p)] *)
Definition os_path_exists (p : string) : M bool := λ w,
  (Ok (bool_decide (is_Some (w_files w !! p))), w).

(** [os.remove(p)] *)
Definition os_remove (p : string) : M unit :=
  io OSError ;;
  os_path_exists p ≫= λ e : bool,
  if e then modify (with_files (delete p)) else raise OSError.

(** [s3.put_object(Bucket=..., Key=k, Body=b, ContentType=ct)] *)
Definition s3_put_object (k : string) (b : bytes) (ct : string) : M unit :=
  io ClientError ;; modify (with_bucket (insert k (mkS3Object b ct))).

(** The object stored under a key; a missing key is an error
    ([NoSuchKey], a [ClientError]). *)
Definition bucket_lookup (k : string) : M S3Object := λ w,
  match w_bucket w !! k with
  | Some o => (Ok o, w)
  | None => (Raise ClientError, w)
  end.

(** [s3.get_object(Bucket=..., Key=k)] *)
Definition s3_get_object (k : string) : M S3Object :=
  io ClientError ;; bucket_lookup k.

(** [s3.delete_object(Bucket=..., Key=k)]: a missing key is no error. *)
Definition s3_delete_object (k : string) : M unit :=
  io ClientError ;; modify (with_bucket (delete k)).

(** Reading the object behind a reference. *)
Definition load (track : nat) : M Track := λ w, (Ok (w_heap w track), w).

(** [track.x = v] *)
Definition setattr (track : nat) (set : Track → Track) : M unit :=
  modify (with_heap (alter set track)).

(** [Track(...)]: a new object. *)
Definition alloc (t : Track) : M nat := λ w,
  (Ok (w_next_ref w),
   with_next_ref (S (w_next_ref w))
     (with_heap (λ h, <[w_next_ref w := t]> h) w)).

(** [db.session.add(obj)] *)
Definition db_add (r : nat) : M unit :=
  modify (with_session (λ s, if bool_decide (r ∈ s) then s else (s ++ [r])%list)).

(** [db.session.flush()]: sends the pending changes inside the open
    transaction; nothing is visible in [w_rows] before the commit. *)
Definition db_flush : M unit := io SQLAlchemyError.

(** [db.session.commit()]: the attached objects become rows. *)
Definition db_commit : M unit :=
  io SQLAlchemyError ;;
  modify (λ w, with_rows
    (λ rows, foldr (λ r m, <[r := w_heap w r]> m) rows (w_session w)) w).

(** [db.session.rollback()]: objects whose row was never committed leave
    the session with their attributes as they are; the others are
    restored from their rows. *)
Definition db_rollback : M unit :=
  modify (λ w,
    with_session (filter (λ r, is_Some (w_rows w !! r)))
      (with_heap (λ h r,
         if bool_decide (r ∈ w_session w)
         then default (h r) (w_rows w !! r) else h r) w)).

(** ** utils.py *)

(** [return "." in filename and filename.rsplit(".", 1)[1].lower() in allowed] *)
Definition allowed_file (filename : string) (allowed : gset string) : res bool :=
  if Py.contains "." filename then
    match Py.index (Py.rsplit1 "." filename) 1 with
    | Ok e => Ok (bool_decide (Py.lower e ∈ allowed))
    | Raise x => Raise x
    end
  else Ok false.

(** What a [send_file] call is given: the bytes to send
    ([io.BytesIO(b)]) or the path of the file to send, the MIME type and
    the download name. *)
Inductive Payload : Type :=
  | FromBytes (b : bytes)
  | FromPath (p : string).

Record FileResponse : Type := mkFileResponse {
  payload : Payload;
  mimetype : string;
  download_name : option string
}.

(** [send_file(...)] and [abort(code)] as [utils.py] sees them. The
    module imports neither name (its imports are [os], [io], [uuid],
    [logging], [Path], [AudioSegment], [ffmpeg], [Image],
    [secure_filename], [db], [Track], [User], [SQLAlchemyError] and
    [boto3]; it is [app.py] that imports [send_file] and [abort] from
    flask, into its own namespace), and it defines neither. So where
    [get_file_stream_response] calls one of them, looking up the name
    raises [NameError], before any argument is evaluated. *)
Definition send_file (r : FileResponse) : M (option FileResponse) :=
  raise (NameError "send_file").

Definition abort {A} (code : nat) : M A :=
  raise (NameError "abort").

Section Pipeline.
Context `{External}.

(** [AudioSegment.from_file(io.BytesIO(b), format=ext)] *)
Definition AudioSegment_from_file (b : bytes) (ext : string) : M AudioSegment :=
  lift (match from_file b ext with
        | Some a => Ok a
        | None => Raise CouldntDecodeError
        end).

(** [seg.export(buf, format=f, bitrate=r)] and then [buf.getvalue()] *)
Definition export_bytes (seg : AudioSegment) (f r : string) : M bytes :=
  lift (match export seg f r with
        | Some b => Ok b
        | None => Raise CouldntEncodeError
        end).

(** [process_track_upload(track, file_storage, app)] *)
Definition process_track_upload
    (track : nat) (file_storage : FileStorage) (app : Config) : M unit :=
  let filename := secure_filename (fs_filename file_storage) in
  e ← lift (Py.index (Py.rsplit1 "." filename) 1);
  let ext := Py.lower e in
  orig_bytes ← read file_storage;
  (* determine duration via pydub *)
  audio ← AudioSegment_from_file orig_bytes ext;
  let duration_ms := Z.of_nat (length audio) in
  setattr track (set_duration (Some (duration_ms `quot` 1000)%Z)) ;;
  setattr track (set_original_filename (Some filename)) ;;
  (* create mp3 (transcode) *)
  mp3 ← export_bytes audio "mp3" (TRANSCODE_BITRATE app);
  (* create preview (clip) *)
  let preview_len := (PREVIEW_DURATION app * 1000)%Z in
  let preview_seg := Py.slice_to audio preview_len in
  preview ← export_bytes preview_seg "mp3" (TRANSCODE_BITRATE app);
  let mode := STORAGE_MODE app in
  (if String.eqb mode "postgres" then
     setattr track (set_original_file (Some orig_bytes)) ;;
     setattr track (set_mp3_file (Some mp3)) ;;
     setattr track (set_preview_file (Some preview))
   else if String.eqb mode "s3" then
     t ← load track;
     u ← uuid4_hex;
     let key_base := "tracks/" +:+ pretty (owner_id t) +:+ "/" +:+ u in
     s3_put_object (key_base +:+ "/original." +:+ ext) orig_bytes ("audio/" +:+ ext) ;;
     s3_put_object (key_base +:+ "/stream.mp3") mp3 "audio/mpeg" ;;
     s3_put_object (key_base +:+ "/preview.mp3") preview "audio/mpeg" ;;
     setattr track (set_s3_key (Some (key_base +:+ "/original." +:+ ext))) ;;
     setattr track (set_s3_mp3_key (Some (key_base +:+ "/stream.mp3"))) ;;
     setattr track (set_s3_preview_key (Some (key_base +:+ "/preview.mp3")))
   else
     (* local filesystem *)
     t ← load track;
     let base := path_join (UPLOAD_FOLDER app) (pretty (owner_id t)) in
     mkdir base ;;
     u1 ← uuid4_hex;
     let orig_path := path_join base (u1 +:+ "_orig." +:+ ext) in
     open_wb orig_path ;;
     write orig_path orig_bytes ;;
     u2 ← uuid4_hex;
     let mp3_path := path_join base (u2 +:+ "_stream.mp3") in
     open_wb mp3_path ;;
     write mp3_path mp3 ;;
     u3 ← uuid4_hex;
     let preview_path := path_join base (u3 +:+ "_preview.mp3") in
     open_wb preview_path ;;
     write preview_path preview ;;
     setattr track (set_file_path (Some orig_path)) ;;
     setattr track (set_mp3_path (Some mp3_path)) ;;
     setattr track (set_preview_path (Some preview_path))) ;;
  (* set mime *)
  setattr track (set_mime_type (Some "audio/mpeg")) ;;
  db_add track ;;
  db_flush.

End Pipeline.

(** [get_file_stream_response(track, variant, app)]. The result [None]
    is Python's [None]: the function ends without a [return]. *)
Definition get_file_stream_response
    (track : nat) (variant : string) (app : Config) : M (option FileResponse) :=
  let mode := STORAGE_MODE app in
  t ← load track;
  if String.eqb mode "postgres" then
    if String.eqb variant "mp3" && Py.truthy_bytes (mp3_file t) then
      send_file (mkFileResponse (FromBytes (default [] (mp3_file t))) "audio/mpeg"
                   (Some (title t +:+ ".mp3")))
    else if String.eqb variant "preview" && Py.truthy_bytes (preview_file t) then
      send_file (mkFileResponse (FromBytes (default [] (preview_file t))) "audio/mpeg"
                   (Some (title t +:+ "_preview.mp3")))
    else if Py.truthy_bytes (original_file t) then
      (* try detect original mime *)
      send_file (mkFileResponse (FromBytes (default [] (original_file t)))
                   (Py.or_default (mime_type t) "application/octet-stream")
                   (original_filename t))
    else mret None
  else if String.eqb mode "s3" then
    let key :=
      if String.eqb variant "mp3" then Py.or_str (s3_mp3_key t) (s3_key t)
      else if String.eqb variant "preview" then Py.or_str (s3_preview_key t) (s3_mp3_key t)
      else s3_key t in
    if negb (Py.truthy_str key) then abort 404
    else
      obj ← s3_get_object (default "" key);
      send_file (mkFileResponse (FromBytes (s3_body obj)) (s3_content_type obj)
                   (Some (title t)))
  else
    (* local paths *)
    let path :=
      if String.eqb variant "mp3" then Py.or_str (mp3_path t) (file_path t)
      else if String.eqb variant "preview" then Py.or_str (preview_path t) (mp3_path t)
      else file_path t in
    if negb (Py.truthy_str path) then abort 404
    else
      os_path_exists (default "" path) ≫= λ e : bool,
      if negb e then abort 404
      else
        send_file (mkFileResponse (FromPath (default "" path))
                     (Py.or_default (mime_type t) "audio/mpeg")
                     (Some (Py.basename (default "" path)))).

(** [storage_delete(track, app)] *)
Definition storage_delete (track : nat) (app : Config) : M unit :=
  let mode := STORAGE_MODE app in
  try_except
    (if String.eqb mode "local" then
       t ← load track;
       (* the last entry is [getattr(track, "avatar_filename", None)]:
          a Track has no such attribute *)
       for_each [file_path t; mp3_path t; preview_path t; None] (λ p,
         if Py.truthy_str p then
           os_path_exists (default "" p) ≫= λ e : bool,
           if e then os_remove (default "" p) else mret tt
         else mret tt)
     else if String.eqb mode "s3" then
       t ← load track;
       let keys := filter (λ k, Py.truthy_str k = true)
                     [s3_key t; s3_mp3_key t; s3_preview_key t] in
       for_each keys (λ k, s3_delete_object (default "" k))
     else
       (* postgres: null out binary fields *)
       setattr track (set_original_file None) ;;
       setattr track (set_mp3_file None) ;;
       setattr track (set_preview_file None) ;;
       db_commit)
    (λ e, logger_exception ("Error cleaning storage: " +:+ exn_str e)).

(** ** app.py *)

(** What the [upload] view reads from the request: whether the form
    validates, the logged-in user, and the fields of [UploadForm]. *)
Record Request : Type := mkRequest {
  validate_on_submit : bool;
  current_user_id : Z;
  form_title : string;
  form_description : string;
  form_track : FileStorage
}.

Inductive Response : Type :=
  | Redirect (endpoint : string) (track_id : option nat)
  | Render (template : string).

Section Views.
Context `{External}.

(** The [except Exception as e:] block of [upload], and the
    [render_template] that follows it. *)
Definition upload_except (track : nat) (app : Config) (e : exn) : M Response :=
  db_rollback ;;
  (* cleanup any stored files if necessary *)
  storage_delete track app ;;
  logger_exception "Upload failed" ;;
  flash ("Upload failed: " +:+ exn_str e) "danger" ;;
  mret (Render "upload.html").

(** The [upload] view. A track's primary key is its reference. *)
Definition upload (req : Request) (app : Config) : M Response :=
  if validate_on_submit req then
    let f := form_track req in
    lift (allowed_file (fs_filename f) (ALLOWED_EXTENSIONS app)) ≫= λ ok : bool,
    if negb ok then
      flash "File type not allowed." "danger" ;;
      mret (Redirect "upload" None)
    else
      (* secure & visible meta *)
      let filename := secure_filename (fs_filename f) in
      ti ← (if Py.truthy_str (Some (form_title req)) then mret (form_title req)
            else lift (Py.index (Py.rsplit1 "." filename) 0));
      track ← alloc (new_Track (current_user_id req) ti (form_description req));
      db_add track ;;
      db_flush ;; (* get id *)
      try_except
        ((* process upload: store original + generate mp3 + preview clip *)
         process_track_upload track f app ;;
         db_commit ;;
         flash "Upload successful — transcoding & previews created." "success" ;;
         mret (Redirect "track" (Some track)))
        (upload_except track app)
  else mret (Render "upload.html").

End Views.

(** ** A concrete environment

    A stand-in for the libraries, used to run the pipeline on concrete
    uploads: file names are kept as they are, every byte of a non-empty
    upload decodes to one millisecond of audio, and the encoder writes
    one byte per millisecond. *)

Definition byte_of_Z (z : Z) : Byte.byte :=
  default Byte.x00 (Byte.of_N (Z.to_N (z `mod` 256))).

#[local] Instance demo : External := {|
  secure_filename := λ s, s;
  from_file := λ b ext,
    match b with
    | [] => None
    | _ => Some (map (λ x, Z.of_N (Byte.to_N x)) b)
    end;
  export := λ seg f r, Some (map byte_of_Z seg)
|}.

(** A world with empty storage, no track, and the given faults. *)
Definition world0 (faults : nat → bool) : World :=
  {| w_files := ∅; w_bucket := ∅;
     w_heap := λ _, new_Track 0 "" ""; w_next_ref := 0;
     w_session := []; w_rows := ∅;
     w_stream_pos := 0; w_uuids := 0; w_entropy := λ n, N.of_nat n;
     w_clock := 0; w_faults := faults;
     w_log := []; w_flashes := [] |}.

(** The same world holding one track, under every reference, and the
    given files and bucket. *)
Definition world_of (t : Track) (files : gmap string bytes)
    (bucket : gmap string S3Object) (faults : nat → bool) : World :=
  with_bucket (λ _, bucket)
    (with_files (λ _, files) (with_heap (λ _ _, t) (world0 faults))).

Definition no_faults : nat → bool := λ _, false.

(** Exactly the [n]-th fallible call fails. *)
Definition fault_at (n : nat) : nat → bool := λ k, Nat.eqb k n.

(** ** Vocabulary of the properties *)

(** Whether the locator of a variant is present, as retrieval tests it:
    the field of the mode's field set is neither [None] nor empty. The
    modes are told apart as [process_track_upload] and
    [get_file_stream_response] do. *)
Definition has_original (app : Config) (t : Track) : bool :=
  if String.eqb (STORAGE_MODE app) "postgres" then Py.truthy_bytes (original_file t)
  else if String.eqb (STORAGE_MODE app) "s3" then Py.truthy_str (s3_key t)
  else Py.truthy_str (file_path t).

Definition has_stream (app : Config) (t : Track) : bool :=
  if String.eqb (STORAGE_MODE app) "postgres" then Py.truthy_bytes (mp3_file t)
  else if String.eqb (STORAGE_MODE app) "s3" then Py.truthy_str (s3_mp3_key t)
  else Py.truthy_str (mp3_path t).

Definition has_preview (app : Config) (t : Track) : bool :=
  if String.eqb (STORAGE_MODE app) "postgres" then Py.truthy_bytes (preview_file t)
  else if String.eqb (STORAGE_MODE app) "s3" then Py.truthy_str (s3_preview_key t)
  else Py.truthy_str (preview_path t).

(** The three locator fields of the mode's field set are all null. *)
Definition locators_all_null (app : Config) (t : Track) : Prop :=
  if String.eqb (STORAGE_MODE app) "postgres" then
    original_file t = None ∧ mp3_file t = None ∧ preview_file t = None
  else if String.eqb (STORAGE_MODE app) "s3" then
    s3_key t = None ∧ s3_mp3_key t = None ∧ s3_preview_key t = None
  else
    file_path t = None ∧ mp3_path t = None ∧ preview_path t = None.

(** The three locator fields of the mode's field set are all non-null. *)
Definition locators_all_set (app : Config) (t : Track) : Prop :=
  if String.eqb (STORAGE_MODE app) "postgres" then
    is_Some (original_file t) ∧ is_Some (mp3_file t) ∧ is_Some (preview_file t)
  else if String.eqb (STORAGE_MODE app) "s3" then
    is_Some (s3_key t) ∧ is_Some (s3_mp3_key t) ∧ is_Some (s3_preview_key t)
  else
    is_Some (file_path t) ∧ is_Some (mp3_path t) ∧ is_Some (preview_path t).

(** The bytes behind the locator of a variant: the field itself in
    postgres mode, the object under the key in s3 mode, the file under
    the path otherwise. *)
Definition blob_at (app : Config) (w : World)
    (blob : option bytes) (key path : option string) : option bytes :=
  if String.eqb (STORAGE_MODE app) "postgres" then blob
  else if String.eqb (STORAGE_MODE app) "s3" then
    k ← key; s3_body <$> w_bucket w !! k
  else
    p ← path; w_files w !! p.

Definition blob_original (app : Config) (w : World) (t : Track) : option bytes :=
  blob_at app w (original_file t) (s3_key t) (file_path t).
Definition blob_stream (app : Config) (w : World) (t : Track) : option bytes :=
  blob_at app w (mp3_file t) (s3_mp3_key t) (mp3_path t).
Definition blob_preview (app : Config) (w : World) (t : Track) : option bytes :=
  blob_at app w (preview_file t) (s3_preview_key t) (preview_path t).

(** ** utils.py: avatars *)

(** The columns of [User] (models.py). *)
Record User : Type := mkUser {
  user_id : Z;
  username : string;
  email : string;
  password_hash : string;
  bio : string;
  avatar_filename : option string;
  avatar_data : option bytes
}.

Definition set_avatar_filename (v : option string) (u : User) : User :=
  mkUser (user_id u) (username u) (email u) (password_hash u) (bio u)
    v (avatar_data u).
Definition set_avatar_data (v : option bytes) (u : User) : User :=
  mkUser (user_id u) (username u) (email u) (password_hash u) (bio u)
    (avatar_filename u) v.

(** [AVATAR_MAX_SIZE] of [BaseConfig] (config.py). *)
Definition AVATAR_MAX_SIZE : Z * Z := (512, 512)%Z.

(** Pillow, which is no part of this repository: [Image.open(stream)],
    [img.thumbnail(size)] and [img.save(out, format="PNG")] taken
    together, from the bytes of the stream to the bytes of the PNG.
    [None] when the stream is no image ([UnidentifiedImageError], an
    [OSError]). *)
Class Imaging : Type := mkImaging {
  png_thumbnail : bytes → Z * Z → option bytes
}.

Section Avatars.
Context `{Imaging}.

(** [handle_avatar_upload] up to its last statement. The user object is
    passed by value: the result is the user as the assignments leave it.
    Whatever raises here raises before the first assignment. *)
Definition avatar_store
    (user : User) (file_storage : FileStorage) (app : Config) : M User :=
  data ← read file_storage;
  out ← lift (match png_thumbnail data AVATAR_MAX_SIZE with
              | Some b => Ok b
              | None => Raise OSError
              end);
  u ← uuid4_hex;
  let filename := "avatar_" +:+ pretty (user_id user) +:+ "_" +:+ u +:+ ".png" in
  if String.eqb (STORAGE_MODE app) "postgres" then
    mret (set_avatar_filename (Some filename) (set_avatar_data (Some out) user))
  else if String.eqb (STORAGE_MODE app) "s3" then
    let key := "avatars/" +:+ filename in
    s3_put_object key out "image/png" ;;
    mret (set_avatar_filename (Some key) user)
  else
    let out_path := path_join (UPLOAD_FOLDER app) "avatars" in
    mkdir out_path ;;
    let file_path := path_join out_path filename in
    open_wb file_path ;;
    write file_path out ;;
    mret (set_avatar_filename (Some file_path) user).

(** [handle_avatar_upload(user, file_storage, app)]: the stores above,
    then [db.session.commit()]. The result carries the user object as the
    call leaves it, also when the call raises. The row of the user is not
    part of [World]; the commit is the fallible call it is for tracks. *)
Definition handle_avatar_upload
    (user : User) (file_storage : FileStorage) (app : Config)
    : World → res unit * User * World := λ w,
  match avatar_store user file_storage app w with
  | (Ok u, w1) => (fst (db_commit w1), u, snd (db_commit w1))
  | (Raise e, w1) => (Raise e, user, w1)
  end.

End Avatars.

(** ** app.py: the streaming views *)

(** [Track.query.get_or_404(track_id)]: an object attached to the session
    is returned as it is (the identity map); otherwise the object is
    loaded from its row, and a missing row aborts with 404. *)
Definition Track_query_get_or_404 (track_id : nat) : M nat := λ w,
  if bool_decide (track_id ∈ w_session w) then (Ok track_id, w)
  else
    match w_rows w !! track_id with
    | Some t =>
        (Ok track_id,
         with_session (λ s, (s ++ [track_id])%list)
           (with_heap (λ h, <[track_id := t]> h) w))
    | None => (Raise NotFound, w)
    end.

(** The [stream] view. *)
Definition stream_view (track_id : nat) (app : Config) : M (option FileResponse) :=
  track ← Track_query_get_or_404 track_id;
  get_file_stream_response track "mp3" app.

(** The [preview] view. *)
Definition preview_view (track_id : nat) (app : Config) : M (option FileResponse) :=
  track ← Track_query_get_or_404 track_id;
  get_file_stream_response track "preview" app.

(** The session of the next request: Flask-SQLAlchemy removes the session
    when a request ends, so no object is attached at the start. *)
Definition next_request (w : World) : World := with_session (λ _, []) w.

(** ** app.py: the social views

    The tables these views read and write. Rows are kept in the order of
    their primary keys, so that [query.first()] is the first match. *)

Record Follow : Type := mkFollow {
  follower_id : Z;
  followed_id : Z
}.

Record Favorite : Type := mkFavorite {
  fav_user_id : Z;
  fav_track_id : nat
}.

Record PlaylistTrack : Type := mkPlaylistTrack {
  pt_playlist_id : nat;
  pt_track_id : nat
}.

#[global] Instance Follow_eq_dec : EqDecision Follow.
Proof. solve_decision. Defined.
#[global] Instance Favorite_eq_dec : EqDecision Favorite.
Proof. solve_decision. Defined.
#[global] Instance PlaylistTrack_eq_dec : EqDecision PlaylistTrack.
Proof. solve_decision. Defined.

Record Site : Type := mkSite {
  site_users : list User;                 (* table users *)
  site_tracks : gmap nat Track;           (* table tracks, by primary key *)
  site_playlists : gmap nat Z;            (* table playlists: id to user_id *)
  site_follows : list Follow;             (* table follows *)
  site_favorites : list Favorite;         (* table favorites *)
  site_playlist_tracks : list PlaylistTrack (* table playlist_tracks *)
}.

Definition with_users (f : list User → list User) (s : Site) : Site :=
  mkSite (f (site_users s)) (site_tracks s) (site_playlists s)
    (site_follows s) (site_favorites s) (site_playlist_tracks s).
Definition with_follows (f : list Follow → list Follow) (s : Site) : Site :=
  mkSite (site_users s) (site_tracks s) (site_playlists s)
    (f (site_follows s)) (site_favorites s) (site_playlist_tracks s).
Definition with_favorites (f : list Favorite → list Favorite) (s : Site) : Site :=
  mkSite (site_users s) (site_tracks s) (site_playlists s)
    (site_follows s) (f (site_favorites s)) (site_playlist_tracks s).
Definition with_playlist_tracks
    (f : list PlaylistTrack → list PlaylistTrack) (s : Site) : Site :=
  mkSite (site_users s) (site_tracks s) (site_playlists s)
    (site_follows s) (site_favorites s) (f (site_playlist_tracks s)).

(** [jsonify({...})] values. *)
Inductive JVal : Type :=
  | JStr (s : string)
  | JNum (n : nat).

(** What a social view answers: [jsonify(...)] with its status code, a
    redirect, a rendered template, or [abort(code)]. *)
Inductive Reply : Type :=
  | Json (code : nat) (fields : list (string * JVal))
  | RedirectTo (endpoint : string)
  | RenderTemplate (name : string)
  | Abort (code : nat).

(** [@login_required] with [login_manager.login_view = "login"]: an
    anonymous request is redirected to the login view and the view is
    not run. *)
Definition login_required {A} (current_user : option Z)
    (view : Z → A → res Reply * A) : A → res Reply * A := λ s,
  match current_user with
  | Some me => view me s
  | None => (Ok (RedirectTo "login"), s)
  end.

(** [db.session.commit()] of the changes that lead from [s] to [s']: when
    the database refuses, the commit raises and the tables stay. *)
Definition commit (ok : bool) (s s' : Site) : res unit * Site :=
  if ok then (Ok tt, s') else (Raise SQLAlchemyError, s).

(** [db.session.delete(query.first())]: the first row that matches goes. *)
Fixpoint delete_first {A} (p : A → bool) (l : list A) : list A :=
  match l with
  | [] => []
  | x :: r => if p x then r else x :: delete_first p r
  end.

(** [User.query.get_or_404(user_id)] finds a row. *)
Definition user_exists (u : Z) (s : Site) : bool :=
  existsb (λ x, Z.eqb (user_id x) u) (site_users s).

(** [filter_by(follower_id=a, followed_id=b)] *)
Definition is_follow (a b : Z) (f : Follow) : bool :=
  Z.eqb (follower_id f) a && Z.eqb (followed_id f) b.

(** [user.followers.count()] *)
Definition followers_count (u : Z) (s : Site) : nat :=
  length (filter (λ f, followed_id f = u) (site_follows s)).

(** The [follow] view, for a logged-in user [me]. *)
Definition follow_body (user_id : Z) (ok : bool) (me : Z) (s : Site)
    : res Reply * Site :=
  if negb (user_exists user_id s) then (Ok (Abort 404), s)
  else if Z.eqb user_id me then
    (Ok (Json 400 [("error", JStr "cannot follow yourself")]), s)
  else if existsb (is_follow me user_id) (site_follows s) then
    (Ok (Json 200 [("status", JStr "already_following")]), s)
  else
    match commit ok s (with_follows (λ l, (l ++ [mkFollow me user_id])%list) s) with
    | (Ok _, s') =>
        (Ok (Json 200 [("status", JStr "ok");
                       ("followers_count", JNum (followers_count user_id s'))]),
         s')
    | (Raise e, s') => (Raise e, s')
    end.

Definition follow (current_user : option Z) (user_id : Z) (ok : bool)
    : Site → res Reply * Site :=
  login_required current_user (follow_body user_id ok).

(** The [unfollow] view. *)
Definition unfollow_body (user_id : Z) (ok : bool) (me : Z) (s : Site)
    : res Reply * Site :=
  if negb (user_exists user_id s) then (Ok (Abort 404), s)
  else
    match
      (if existsb (is_follow me user_id) (site_follows s)
       then commit ok s (with_follows (delete_first (is_follow me user_id)) s)
       else (Ok tt, s))
    with
    | (Ok _, s') =>
        (Ok (Json 200 [("status", JStr "ok");
                       ("followers_count", JNum (followers_count user_id s'))]),
         s')
    | (Raise e, s') => (Raise e, s')
    end.

Definition unfollow (current_user : option Z) (user_id : Z) (ok : bool)
    : Site → res Reply * Site :=
  login_required current_user (unfollow_body user_id ok).

(** [filter_by(user_id=a, track_id=t)] on favorites. *)
Definition is_favorite (a : Z) (t : nat) (f : Favorite) : bool :=
  Z.eqb (fav_user_id f) a && Nat.eqb (fav_track_id f) t.

(** The [favorite] view. *)
Definition favorite_body (track_id : nat) (ok : bool) (me : Z) (s : Site)
    : res Reply * Site :=
  match site_tracks s !! track_id with
  | None => (Ok (Abort 404), s)
  | Some _ =>
      if existsb (is_favorite me track_id) (site_favorites s) then
        (Ok (Json 200 [("status", JStr "already_favorited")]), s)
      else
        match commit ok s
                (with_favorites (λ l, (l ++ [mkFavorite me track_id])%list) s) with
        | (Ok _, s') => (Ok (Json 200 [("status", JStr "ok")]), s')
        | (Raise e, s') => (Raise e, s')
        end
  end.

Definition favorite (current_user : option Z) (track_id : nat) (ok : bool)
    : Site → res Reply * Site :=
  login_required current_user (favorite_body track_id ok).

(** The [unfavorite] view: the track itself is not looked up. *)
Definition unfavorite_body (track_id : nat) (ok : bool) (me : Z) (s : Site)
    : res Reply * Site :=
  match
    (if existsb (is_favorite me track_id) (site_favorites s)
     then commit ok s (with_favorites (delete_first (is_favorite me track_id)) s)
     else (Ok tt, s))
  with
  | (Ok _, s') => (Ok (Json 200 [("status", JStr "ok")]), s')
  | (Raise e, s') => (Raise e, s')
  end.

Definition unfavorite (current_user : option Z) (track_id : nat) (ok : bool)
    : Site → res Reply * Site :=
  login_required current_user (unfavorite_body track_id ok).

(** [filter_by(playlist_id=p, track_id=t)] on playlist_tracks. *)
Definition is_playlist_track (p t : nat) (x : PlaylistTrack) : bool :=
  Nat.eqb (pt_playlist_id x) p && Nat.eqb (pt_track_id x) t.

(** The [playlist_add_track] view: the track itself is not looked up. *)
Definition playlist_add_track_body (playlist_id track_id : nat) (ok : bool)
    (me : Z) (s : Site) : res Reply * Site :=
  match site_playlists s !! playlist_id with
  | None => (Ok (Abort 404), s)
  | Some owner =>
      if negb (Z.eqb owner me) then (Ok (Abort 403), s)
      else
        match
          (if negb (existsb (is_playlist_track playlist_id track_id)
                      (site_playlist_tracks s))
           then commit ok s
                  (with_playlist_tracks
                     (λ l, (l ++ [mkPlaylistTrack playlist_id track_id])%list) s)
           else (Ok tt, s))
        with
        | (Ok _, s') => (Ok (Json 200 [("status", JStr "ok")]), s')
        | (Raise e, s') => (Raise e, s')
        end
  end.

Definition playlist_add_track (current_user : option Z)
    (playlist_id track_id : nat) (ok : bool) : Site → res Reply * Site :=
  login_required current_user (playlist_add_track_body playlist_id track_id ok).

(** ** A second concrete environment

    Like [demo], except that [secure_filename] removes leading dots, as
    werkzeug's does. *)

Fixpoint strip_dots (s : string) : string :=
  match s with
  | String "." r => strip_dots r
  | _ => s
  end.

Definition demo_strip : External := {|
  secure_filename := strip_dots;
  from_file := λ b ext,
    match b with
    | [] => None
    | _ => Some (map (λ x, Z.of_N (Byte.to_N x)) b)
    end;
  export := λ seg f r, Some (map byte_of_Z seg)
|}.

(** An image library for examples: every non-empty stream is an image,
    and its PNG is the stream itself. *)
Definition demo_imaging : Imaging := {|
  png_thumbnail := λ b size, match b with [] => None | _ => Some b end
|}.

(** ** Vocabulary of the avatar properties *)


(** ** Vocabulary of the social views *)

(** No follow row twice, and nobody follows themselves. The table has no
    constraint for either. *)
Definition follows_ok (s : Site) : Prop :=
  NoDup (site_follows s) ∧
  ∀ f, f ∈ site_follows s → follower_id f ≠ followed_id f.

(** No favorite row twice, and every favorite is of a track that
    exists. *)
Definition favorites_ok (s : Site) : Prop :=
  NoDup (site_favorites s) ∧
  ∀ f, f ∈ site_favorites s → is_Some (site_tracks s !! fav_track_id f).

(** [me] follows [u]. *)
Definition following (me u : Z) (s : Site) : bool :=
  existsb (is_follow me u) (site_follows s).

(** * Properties *)

(** ** Facts about the string primitives *)

Lemma contains_chars c s : Py.contains c s = true ↔ c ∈ Py.chars s.
Proof.
  induction s as [|d r IH]; simpl.
  - split; [discriminate | intros Hin; inversion Hin].
  - destruct (Ascii.eqb_spec d c) as [->|Hne].
    + split; [intros _; left | done].
    + rewrite IH. split; [by right | intros Hin].
      inversion Hin; subst; [congruence | done].
Qed.

Lemma contains_false_chars c s : Py.contains c s = false ↔ c ∉ Py.chars s.
Proof.
  rewrite <- contains_chars. destruct (Py.contains c s); split; congruence.
Qed.

Lemma rsplit_last_none sep s :
  Py.rsplit_last sep s = None ↔ Py.contains sep s = false.
Proof.
  induction s as [|c r IH]; simpl; [done|].
  destruct (Py.rsplit_last sep r) as [[h t]|].
  - destruct (Ascii.eqb c sep); [done|].
    split; [discriminate | intros Hc; apply IH in Hc; discriminate].
  - destruct (Ascii.eqb c sep); [done|]. by rewrite <- IH.
Qed.

Lemma contains_app_sep sep h t : Py.contains sep (h +:+ String sep t) = true.
Proof.
  induction h as [|e h IH]; simpl.
  - by rewrite Ascii.eqb_refl.
  - destruct (Ascii.eqb e sep); [done | exact IH].
Qed.

Lemma rsplit_last_some sep s h t :
  Py.rsplit_last sep s = Some (h, t) ↔
  s = h +:+ String sep t ∧ Py.contains sep t = false.
Proof.
  revert h. induction s as [|c r IH]; intros h; simpl.
  - split; [discriminate | intros [Hs _]]. by destruct h.
  - destruct (Py.rsplit_last sep r) as [[h' t']|] eqn:E.
    + split.
      * intros [= <- <-]. by destruct (proj1 (IH h') eq_refl) as [-> Ht].
      * intros [Hs Ht]. destruct h as [|d h]; simpl in Hs.
        -- injection Hs as -> ->. apply rsplit_last_none in Ht. congruence.
        -- injection Hs as -> Hr.
           assert (Some (h', t') = Some (h, t)) as [= -> ->]; [|done].
           by apply IH.
    + apply rsplit_last_none in E. split.
      * destruct (Ascii.eqb_spec c sep) as [->|Hne]; [|discriminate].
        by intros [= <- <-].
      * intros [Hs Ht]. destruct h as [|d h]; simpl in Hs.
        -- injection Hs as -> ->. by rewrite Ascii.eqb_refl.
        -- injection Hs as -> ->. by rewrite contains_app_sep in E.
Qed.

Lemma index_raises {A} (l : list A) i e : Py.index l i = Raise e → e = IndexError.
Proof. unfold Py.index. destruct (l !! i); congruence. Qed.

Lemma hex_digits_length k n acc :
  String.length (Py.hex_digits k n acc) = k + String.length acc.
Proof.
  revert n acc. induction k as [|k IH]; intros n acc; simpl; [done|].
  rewrite IH. simpl. lia.
Qed.

Lemma hex32_length n : String.length (Py.hex32 n) = 32.
Proof. unfold Py.hex32. by rewrite hex_digits_length. Qed.

Lemma app_same_length_inj u1 u2 s1 s2 :
  String.length u1 = String.length u2 →
  u1 +:+ s1 = u2 +:+ s2 → u1 = u2 ∧ s1 = s2.
Proof.
  revert u2. induction u1 as [|c u1 IH]; intros [|d u2]; simpl; try done.
  intros [= Hlen] [= -> Happ]. destruct (IH _ Hlen Happ) as [-> ->]. done.
Qed.

(** Two files that ingestion writes under one directory differ as soon
    as their suffixes differ: the random parts have the same length. *)
Lemma path_join_ne base n1 n2 s1 s2 :
  s1 ≠ s2 →
  path_join base (Py.hex32 n1 +:+ s1) ≠ path_join base (Py.hex32 n2 +:+ s2).
Proof.
  intros Hne Heq. unfold path_join in Heq.
  apply (inj (String.app base)), (inj (String.app "/")) in Heq.
  apply app_same_length_inj in Heq as [_ Heq]; [done|].
  by rewrite !hex32_length.
Qed.

Lemma key_ne base s1 s2 : s1 ≠ s2 → base +:+ s1 ≠ base +:+ s2.
Proof. intros Hne Heq. by apply (inj (String.app base)) in Heq. Qed.

Lemma truthy_path_join a b : Py.truthy_str (Some (path_join a b)) = true.
Proof. unfold path_join. by destruct a. Qed.

(** ** Symbolic execution of handlers *)

Ltac unfold_ops :=
  unfold AudioSegment_from_file, export_bytes,
    s3_put_object, s3_get_object, s3_delete_object, bucket_lookup,
    send_file, abort, open_wb, write, mkdir, os_remove, os_path_exists,
    uuid4_hex, read, load, setattr, alloc,
    db_add, db_flush, db_commit, db_rollback,
    logger_exception, flash, io, modify, lift, raise, try_except,
    mbind, M_bind, mret, M_ret in *.

(** Case analysis on the innermost scrutinee of the goal. *)
Ltac step :=
  match goal with
  | |- context [match ?x with _ => _ end] =>
      lazymatch x with
      | context [match _ with _ => _ end] => fail
      | _ => destruct x eqn:?
      end
  end; cbn in *.

Ltac index_cases :=
  repeat match goal with
         | Hi : Py.index _ _ = Raise _ |- _ => apply index_raises in Hi; subst
         end.

Lemma bind_ok {A B} (m : M A) (k : A → M B) w a w1 :
  m w = (Ok a, w1) → (m ≫= k) w = k a w1.
Proof. intros Hm. unfold mbind, M_bind. by rewrite Hm. Qed.

Lemma bind_raise {A B} (m : M A) (k : A → M B) w e w1 :
  m w = (Raise e, w1) → (m ≫= k) w = (Raise e, w1).
Proof. intros Hm. unfold mbind, M_bind. by rewrite Hm. Qed.

(** ** C10: [allowed_file] *)

Lemma allowed_file_total filename allowed :
  ∃ b, allowed_file filename allowed = Ok b.
Proof.
  unfold allowed_file, Py.rsplit1, Py.index.
  destruct (Py.contains "." filename) eqn:Hdot; [|eauto].
  destruct (Py.rsplit_last "." filename) as [[h t]|] eqn:Hsplit; [cbn; eauto|].
  apply rsplit_last_none in Hsplit. congruence.
Qed.

(** A name decomposes in one way only around its last dot. *)
Lemma extension_unique filename stem ext :
  filename = stem +:+ "." +:+ ext →
  "."%char ∉ Py.chars ext →
  Py.rsplit_last "." filename = Some (stem, ext).
Proof.
  intros Hs Hext. apply rsplit_last_some. split; [done|].
  by apply contains_false_chars.
Qed.

Lemma allowed_file_true filename allowed :
  allowed_file filename allowed = Ok true ↔
  ∃ stem ext, filename = stem +:+ "." +:+ ext ∧
              ("."%char ∉ Py.chars ext) ∧
              Py.lower ext ∈ allowed.
Proof.
  unfold allowed_file, Py.rsplit1, Py.index. split.
  - destruct (Py.contains "." filename); [|discriminate].
    destruct (Py.rsplit_last "." filename) as [[h t]|] eqn:Hsplit;
      [|discriminate].
    apply rsplit_last_some in Hsplit as [Hs Ht]. cbn.
    intros [= Hin%bool_decide_eq_true].
    exists h, t. by rewrite <- contains_false_chars.
  - intros (stem & ext & Hs & Hext & Hin).
    rewrite (extension_unique _ _ _ Hs Hext). cbn.
    rewrite Hs. change (stem +:+ "." +:+ ext) with (stem +:+ String "." ext).
    rewrite contains_app_sep. f_equal. by apply bool_decide_eq_true.
Qed.

(** C10: [allowed_file filename allowed] never raises, and it returns
    true exactly when [filename] contains a ['.'] and the substring after
    its last ['.'], lower-cased, is a member of [allowed]. A name without
    a dot is rejected even if it equals an allowed extension, and the
    extension is matched case-insensitively. *)
Theorem allowed_file_spec :
  (∀ filename allowed,
     (∃ b, allowed_file filename allowed = Ok b) ∧
     (allowed_file filename allowed = Ok true ↔
        "."%char ∈ Py.chars filename ∧
        ∃ stem ext, filename = stem +:+ "." +:+ ext ∧
                    ("."%char ∉ Py.chars ext) ∧
                    Py.lower ext ∈ allowed)) ∧
  allowed_file "mp3" (ALLOWED_EXTENSIONS BaseConfig) = Ok false ∧
  allowed_file "song.MP3" (ALLOWED_EXTENSIONS BaseConfig) = Ok true.
Proof.
  split; [|split; vm_compute; reflexivity].
  intros filename allowed. split; [apply allowed_file_total|].
  rewrite allowed_file_true. split; [|tauto].
  intros (stem & ext & Hs & Hrest). split; [|eauto].
  apply contains_chars. rewrite Hs. apply contains_app_sep.
Qed.

(** ** C6: a disallowed extension is rejected before any work *)

(** C6: when the extension of the uploaded file's name (what follows its
    last dot, lower-cased) is not in the allow-list, [upload] refuses the
    upload, whether or not the form validated. When the form validated,
    the view answers with the redirect back to the form and the flash
    "File type not allowed."; when it did not (the [FileAllowed]
    validator of [UploadForm] lists the same extensions as the default
    allow-list, so this is where such a name ends), the view renders the
    form again. Either way the upload stream is not read, no fallible
    call (filesystem, S3, database) is made, the filesystem and the
    bucket are as before, and no track object, session entry or row is
    created or changed. *)
Theorem upload_rejects_disallowed_extension `{External} req app w :
  (∀ stem ext,
     fs_filename (form_track req) = stem +:+ "." +:+ ext →
     "."%char ∉ Py.chars ext →
     Py.lower ext ∉ ALLOWED_EXTENSIONS app) →
  let w' := snd (upload req app w) in
  fst (upload req app w) =
    Ok (if validate_on_submit req then Redirect "upload" None
        else Render "upload.html") ∧
  w_flashes w' =
    (if validate_on_submit req
     then w_flashes w ++ [("File type not allowed.", "danger")]
     else w_flashes w)%list ∧
  w_stream_pos w' = w_stream_pos w ∧
  w_clock w' = w_clock w ∧
  w_files w' = w_files w ∧
  w_bucket w' = w_bucket w ∧
  w_heap w' = w_heap w ∧
  w_next_ref w' = w_next_ref w ∧
  w_session w' = w_session w ∧
  w_rows w' = w_rows w.
Proof.
  intros Hext.
  assert (allowed_file (fs_filename (form_track req)) (ALLOWED_EXTENSIONS app)
          = Ok false) as Hno.
  { destruct (allowed_file_total (fs_filename (form_track req))
                (ALLOWED_EXTENSIONS app)) as [[] Hb]; [|done].
    apply allowed_file_true in Hb as (stem & ext & Hs & Hdot & Hin).
    by destruct (Hext stem ext). }
  unfold upload. destruct (validate_on_submit req).
  - unfold_ops. rewrite Hno. cbn. repeat split; reflexivity.
  - unfold_ops. cbn. repeat split; reflexivity.
Qed.

(** The scenario of the specification: an [exe] upload under the default
    allow-list, which the form does not validate. *)
Lemma upload_rejects_exe :
  let req := mkRequest false 7 "" "" (mkFileStorage "setup.exe" [Byte.x4d; Byte.x5a]) in
  let w := world0 no_faults in
  fst (upload req BaseConfig w) = Ok (Render "upload.html") ∧
  w_stream_pos (snd (upload req BaseConfig w)) = 0 ∧
  w_clock (snd (upload req BaseConfig w)) = 0 ∧
  w_files (snd (upload req BaseConfig w)) = ∅ ∧
  w_next_ref (snd (upload req BaseConfig w)) = 0.
Proof.
  intros req w.
  destruct (upload_rejects_disallowed_extension req BaseConfig w)
    as (Hr & _ & Hpos & Hclock & Hfiles & _ & _ & Hnext & _).
  - intros stem ext Hs Hdot.
    pose proof (extension_unique _ _ _ Hs Hdot) as Hu.
    vm_compute in Hu. injection Hu as <- <-.
    apply (bool_decide_eq_false_1 _). vm_compute. reflexivity.
  - repeat split; assumption.
Defined.

(** ** C3: the stream variant without a stream locator *)

(** In postgres mode a request whose variant and original are both
    absent gets no response: the function ends without a [return]. *)
Lemma postgres_nothing_to_serve track variant app w :
  String.eqb (STORAGE_MODE app) "postgres" = true →
  mp3_file (w_heap w track) = None →
  preview_file (w_heap w track) = None →
  original_file (w_heap w track) = None →
  get_file_stream_response track variant app w = (Ok None, w).
Proof.
  unfold get_file_stream_response. unfold_ops. cbn.
  intros -> -> -> ->. cbn. by rewrite !andb_false_r.
Qed.

(** C3, as the code has it: when the stream locator of a track is absent,
    resolving the stream variant is resolving the original variant, in
    every mode: the locator of the original takes the place of the
    stream's. *)
Theorem stream_falls_back_to_original track app w :
  has_stream app (w_heap w track) = false →
  get_file_stream_response track "mp3" app w =
    get_file_stream_response track "original" app w.
Proof.
  unfold has_stream, get_file_stream_response, Py.or_str.
  unfold_ops. cbn.
  destruct (String.eqb (STORAGE_MODE app) "postgres");
    [|destruct (String.eqb (STORAGE_MODE app) "s3")];
    intros ->; reflexivity.
Qed.

(** A track in local mode with only its original stored. *)
Lemma stream_falls_back_to_original_holds :
  let t := set_file_path (Some "uploads/7/a_orig.wav") (new_Track 7 "a" "") in
  let w := world_of t {[ "uploads/7/a_orig.wav" := [Byte.x52] ]} ∅ no_faults in
  has_stream BaseConfig (w_heap w 0) = false ∧
  get_file_stream_response 0 "mp3" BaseConfig w =
    get_file_stream_response 0 "original" BaseConfig w.
Proof.
  intros t w.
  assert (has_stream BaseConfig (w_heap w 0) = false) as Habsent
    by (vm_compute; reflexivity).
  split; [exact Habsent|].
  exact (stream_falls_back_to_original 0 BaseConfig w Habsent).
Defined.

(** Tracks whose stream locator is null and whose original locator is
    set: the stream request does not end in NotFound. In local mode,
    with the original's file on disk, the function gets past its
    existence check with the original's path and on to its [send_file]
    call. In s3 mode [get_object] is called with the original's key (the
    one external call made), and when no object is under that key the
    request ends in the [ClientError] of that call. *)
Lemma stream_absent_resolves_original :
  let t1 := set_file_path (Some "uploads/7/a_orig.wav") (new_Track 7 "a" "") in
  let w1 := world_of t1 {[ "uploads/7/a_orig.wav" := [Byte.x52] ]} ∅ no_faults in
  let t2 := set_s3_key (Some "tracks/7/a/original.wav") (new_Track 7 "a" "") in
  let w2 := world_of t2 ∅ ∅ no_faults in
  let s3 := with_mode "s3" BaseConfig in
  (has_stream BaseConfig (w_heap w1 0) = false ∧
   get_file_stream_response 0 "mp3" BaseConfig w1 =
     (Raise (NameError "send_file"), w1) ∧
   fst (get_file_stream_response 0 "mp3" BaseConfig w1) ≠ Raise NotFound) ∧
  (has_stream s3 (w_heap w2 0) = false ∧
   get_file_stream_response 0 "mp3" s3 w2 = (Raise ClientError, with_clock 1 w2) ∧
   fst (get_file_stream_response 0 "mp3" s3 w2) ≠ Raise NotFound).
Proof. vm_compute. repeat split; discriminate. Qed.

(** ** C4: the preview variant without a preview locator *)

(** In the s3 and local modes a missing preview locator is replaced by
    the stream locator, and by nothing else. *)
Lemma preview_falls_back_to_stream track app w :
  String.eqb (STORAGE_MODE app) "postgres" = false →
  has_preview app (w_heap w track) = false →
  has_stream app (w_heap w track) = true →
  get_file_stream_response track "preview" app w =
    get_file_stream_response track "mp3" app w.
Proof.
  unfold has_stream, has_preview, get_file_stream_response, Py.or_str.
  unfold_ops. cbn. intros ->.
  destruct (String.eqb (STORAGE_MODE app) "s3"); intros Hp Hs;
    rewrite Hp; cbn; rewrite !Hs; reflexivity.
Qed.

(** In postgres mode it is replaced by the original, whether or not the
    stream is there. *)
Lemma preview_postgres_falls_to_original track app w :
  String.eqb (STORAGE_MODE app) "postgres" = true →
  has_preview app (w_heap w track) = false →
  get_file_stream_response track "preview" app w =
    get_file_stream_response track "original" app w.
Proof.
  unfold has_preview, get_file_stream_response.
  unfold_ops. cbn. intros ->. intros ->. reflexivity.
Qed.

(** C4, at the inputs where the code departs from it: in postgres mode, a
    track whose preview is null and whose stream is stored. The branch
    of the preview variant is skipped and the stream is never looked at:
    without an original the function ends without a response, and with
    an original it goes on to the [send_file] call of the original, as a
    request for the original does, where it raises [NameError]. In the
    s3 and local modes the stream's locator is resolved (lemma
    [preview_falls_back_to_stream]), and the request for the same track
    ends in the same [NameError]. *)
Theorem preview_postgres_ignores_stream :
  let t := set_mp3_file (Some [Byte.x02]) (new_Track 7 "a" "") in
  let t' := set_original_file (Some [Byte.x01]) t in
  let app := with_mode "postgres" BaseConfig in
  let w := world_of t ∅ ∅ no_faults in
  let w' := world_of t' ∅ ∅ no_faults in
  (has_preview app (w_heap w 0) = false ∧
   blob_stream app w (w_heap w 0) = Some [Byte.x02] ∧
   get_file_stream_response 0 "preview" app w = (Ok None, w)) ∧
  (has_preview app (w_heap w' 0) = false ∧
   blob_stream app w' (w_heap w' 0) = Some [Byte.x02] ∧
   blob_original app w' (w_heap w' 0) = Some [Byte.x01] ∧
   get_file_stream_response 0 "preview" app w' =
     get_file_stream_response 0 "original" app w' ∧
   get_file_stream_response 0 "preview" app w' =
     (Raise (NameError "send_file"), w')).
Proof. vm_compute. repeat split. Qed.

(** ** A successful ingestion *)

Lemma suffix_s3_stream ext : "/original." +:+ ext ≠ "/stream.mp3".
Proof. discriminate. Qed.
Lemma suffix_s3_preview ext : "/original." +:+ ext ≠ "/preview.mp3".
Proof. discriminate. Qed.
Lemma suffix_s3_other : "/stream.mp3" ≠ "/preview.mp3".
Proof. discriminate. Qed.
Lemma suffix_local_stream ext : "_orig." +:+ ext ≠ "_stream.mp3".
Proof. discriminate. Qed.
Lemma suffix_local_preview ext : "_orig." +:+ ext ≠ "_preview.mp3".
Proof. discriminate. Qed.
Lemma suffix_local_other : "_stream.mp3" ≠ "_preview.mp3".
Proof. discriminate. Qed.

Create HintDb suffixes.
#[local] Hint Resolve suffix_s3_stream suffix_s3_preview suffix_s3_other
  suffix_local_stream suffix_local_preview suffix_local_other : suffixes.

#[local] Arguments Py.hex32 : simpl never.
#[local] Arguments path_join : simpl never.
#[local] Arguments pretty : simpl never.
#[local] Arguments String.append : simpl never.

Section Ingestion.
Context `{External}.
Variables (track : nat) (f : FileStorage) (app : Config) (w : World).
Variables (e : string) (audio : AudioSegment) (mp3 preview : bytes).

(** The name has an extension, the upload decodes, both encodings
    succeed, and no filesystem, S3 or database call fails. *)
Hypothesis Hext :
  Py.index (Py.rsplit1 "." (secure_filename (fs_filename f))) 1 = Ok e.
Hypothesis Hdec :
  from_file (drop (w_stream_pos w) (fs_stream f)) (Py.lower e) = Some audio.
Hypothesis Hmp3 : export audio "mp3" (TRANSCODE_BITRATE app) = Some mp3.
Hypothesis Hprev :
  export (Py.slice_to audio (PREVIEW_DURATION app * 1000)) "mp3"
    (TRANSCODE_BITRATE app) = Some preview.
Hypothesis Hnf : ∀ n, w_faults w n = false.

(** Then ingestion returns normally, the three locators of the mode's
    field set are set, and behind them are the uploaded bytes, the
    transcoding and the preview encoding. *)
Lemma process_track_upload_succeeds :
  ∃ w', process_track_upload track f app w = (Ok tt, w') ∧
    let t' := w_heap w' track in
    blob_original app w' t' = Some (drop (w_stream_pos w) (fs_stream f)) ∧
    blob_stream app w' t' = Some mp3 ∧
    blob_preview app w' t' = Some preview ∧
    locators_all_set app t' ∧
    (String.eqb (STORAGE_MODE app) "postgres" = false →
     has_original app t' = true ∧ has_stream app t' = true ∧
     has_preview app t' = true) ∧
    w_faults w' = w_faults w.
Proof.
  unfold process_track_upload. unfold_ops. cbn.
  rewrite Hext. cbn. rewrite Hdec. cbn. rewrite Hmp3. cbn. rewrite Hprev. cbn.
  unfold blob_original, blob_stream, blob_preview, blob_at,
    locators_all_set, has_original, has_stream, has_preview.
  destruct (String.eqb (STORAGE_MODE app) "postgres") eqn:Hpg;
    [|destruct (String.eqb (STORAGE_MODE app) "s3") eqn:Hs3].
  - cbn. rewrite !Hnf. cbn. eexists. split; [reflexivity|]. cbn.
    rewrite !fn_lookup_alter. cbn.
    repeat split; eauto; done.
  - cbn. repeat (rewrite !Hnf; cbn).
    eexists. split; [reflexivity|]. cbn.
    rewrite !fn_lookup_alter. cbn.
    rewrite !lookup_insert_eq.
    rewrite !(lookup_insert_ne _ (_ +:+ "/preview.mp3"))
      by (apply key_ne; auto with suffixes).
    rewrite !lookup_insert_eq.
    rewrite !(lookup_insert_ne _ (_ +:+ "/stream.mp3"))
      by (apply key_ne; auto with suffixes).
    rewrite !lookup_insert_eq. cbn.
    repeat split; eauto; done.
  - cbn. repeat (rewrite !Hnf; cbn).
    eexists. split; [reflexivity|]. cbn.
    rewrite !fn_lookup_alter. cbn.
    rewrite !lookup_insert_eq.
    rewrite !(lookup_insert_ne _ (path_join _ (_ +:+ "_preview.mp3")))
      by (apply path_join_ne; auto with suffixes).
    rewrite !lookup_insert_eq.
    rewrite !(lookup_insert_ne _ (path_join _ (_ +:+ "_stream.mp3")))
      by (apply path_join_ne; auto with suffixes).
    rewrite !lookup_insert_eq. cbn.
    repeat split; eauto; try done; exact (truthy_path_join _ _).
Qed.

End Ingestion.

(** ** Retrieval of a stored variant *)

Section Retrieval.
Variables (track : nat) (app : Config) (w : World) (b : bytes).
(** The next fallible call, if retrieval makes one, succeeds. *)
Hypothesis Hnf : w_faults w (w_clock w) = false.

(** With the locator of a variant set and its blob in storage, retrieval
    finds the blob and gets as far as its [send_file] call. *)
Ltac retrieve :=
  unfold has_original, has_stream, has_preview,
    blob_original, blob_stream, blob_preview, blob_at,
    get_file_stream_response, Py.or_str;
  unfold_ops; cbn;
  destruct (String.eqb (STORAGE_MODE app) "postgres");
    [|destruct (String.eqb (STORAGE_MODE app) "s3")];
  intros Hhas Hblob; rewrite ?Hhas; cbn; rewrite ?Hhas; cbn;
  [ reflexivity
  | rewrite Hnf; cbn;
    match type of Hblob with
    | option_bind _ _ _ ?k = _ => destruct k as [k'|]; [cbn in *|done]
    end;
    destruct (w_bucket w !! _) as [o|]; cbn in *; [reflexivity|congruence]
  | match type of Hblob with
    | option_bind _ _ _ ?p = _ => destruct p as [p'|]; [cbn in *|done]
    end;
    rewrite Hblob; change (bool_decide (is_Some (Some b))) with true;
    reflexivity ].

Lemma retrieve_original :
  has_original app (w_heap w track) = true →
  blob_original app w (w_heap w track) = Some b →
  fst (get_file_stream_response track "original" app w) =
    Raise (NameError "send_file").
Proof. retrieve. Qed.

Lemma retrieve_stream :
  has_stream app (w_heap w track) = true →
  blob_stream app w (w_heap w track) = Some b →
  fst (get_file_stream_response track "mp3" app w) =
    Raise (NameError "send_file").
Proof. retrieve. Qed.

Lemma retrieve_preview :
  has_preview app (w_heap w track) = true →
  blob_preview app w (w_heap w track) = Some b →
  fst (get_file_stream_response track "preview" app w) =
    Raise (NameError "send_file").
Proof. retrieve. Qed.

End Retrieval.

(** ** C5: the preview clip *)

Lemma slice_to_take {A} (l : list A) (d : Z) :
  (0 ≤ d)%Z →
  Py.slice_to l d = take (Z.to_nat (Z.min d (Z.of_nat (length l)))) l.
Proof.
  intros Hd. unfold Py.slice_to.
  destruct (Z.ltb_spec d 0) as [?|_]; [lia|].
  destruct (Z.le_gt_cases d (Z.of_nat (length l))) as [Hle|Hgt].
  - by rewrite Z.min_l.
  - rewrite Z.min_r, Nat2Z.id by lia.
    rewrite !take_ge by lia. done.
Qed.

(** The scenario of the specification, on the slice alone: ten seconds
    of audio and a preview length of thirty seconds give ten seconds. *)
Example preview_of_ten_seconds :
  Z.of_nat (length (Py.slice_to (repeat 0%Z (Z.to_nat 10000)) (30 * 1000))) =
    10000%Z.
Proof. vm_compute. reflexivity. Qed.

(** C5: for an upload that decodes to [audio], with a preview length that
    is not negative, ingestion stores as the preview the encoding of
    [clip], the leading [min (PREVIEW_DURATION * 1000) (len audio)]
    milliseconds of [audio]; when the audio is not longer than the
    preview length, [clip] is the whole of it. *)
Theorem preview_is_leading_clip `{External}
    track f app w e (audio : AudioSegment) mp3 preview :
  let clip :=
    take (Z.to_nat (Z.min (PREVIEW_DURATION app * 1000)
                          (Z.of_nat (length audio)))) audio in
  (0 ≤ PREVIEW_DURATION app)%Z →
  Py.index (Py.rsplit1 "." (secure_filename (fs_filename f))) 1 = Ok e →
  from_file (drop (w_stream_pos w) (fs_stream f)) (Py.lower e) = Some audio →
  export audio "mp3" (TRANSCODE_BITRATE app) = Some mp3 →
  export clip "mp3" (TRANSCODE_BITRATE app) = Some preview →
  (∀ n, w_faults w n = false) →
  (∃ w', process_track_upload track f app w = (Ok tt, w') ∧
         blob_preview app w' (w_heap w' track) = Some preview) ∧
  Z.of_nat (length clip) =
    Z.min (PREVIEW_DURATION app * 1000) (Z.of_nat (length audio)) ∧
  (∃ rest, audio = (clip ++ rest)%list) ∧
  ((Z.of_nat (length audio) ≤ PREVIEW_DURATION app * 1000)%Z → clip = audio).
Proof.
  intros clip Hd Hext Hdec Hmp3 Hprev Hnf. repeat split.
  - unfold clip in Hprev. rewrite <- slice_to_take in Hprev by lia.
    destruct (process_track_upload_succeeds track f app w e audio mp3 preview)
      as (w' & Hrun & _ & _ & Hblob & _); try done.
    by exists w'.
  - unfold clip. rewrite length_take. lia.
  - exists (drop (Z.to_nat (Z.min (PREVIEW_DURATION app * 1000)
                                  (Z.of_nat (length audio)))) audio).
    unfold clip. by rewrite take_drop.
  - intros Hle. unfold clip. apply take_ge. lia.
Qed.

(** Three milliseconds of audio under a preview length of one second. *)
Lemma preview_of_short_track :
  let f := mkFileStorage "a.wav" [Byte.x01; Byte.x02; Byte.x03] in
  let app := with_preview 1 (with_mode "postgres" BaseConfig) in
  let w := world0 no_faults in
  ∃ w', process_track_upload 0 f app w = (Ok tt, w') ∧
        blob_preview app w' (w_heap w' 0) = Some [Byte.x01; Byte.x02; Byte.x03].
Proof.
  intros f app w.
  apply (preview_is_leading_clip (H := demo) 0 f app w "wav" [1; 2; 3]%Z
           [Byte.x01; Byte.x02; Byte.x03] [Byte.x01; Byte.x02; Byte.x03]);
    try (vm_compute; reflexivity).
  vm_compute. discriminate.
Defined.

(** ** C8: what is written is not served *)

(** C8, where the code departs from it: after an ingestion that succeeds,
    in each of the three modes, the bytes that ingestion wrote are in
    storage behind the three locators of the track, byte for byte; and a
    request for any of the three variants finds its blob, reaches the
    [send_file] call that is to answer with it, and raises [NameError]
    there. No byte comes back. (In postgres mode the blobs are taken to
    be non-empty; an empty one counts as absent.) *)
Theorem ingested_bytes_are_not_served `{External}
    track f app w e (audio : AudioSegment) mp3 preview :
  let orig := drop (w_stream_pos w) (fs_stream f) in
  Py.index (Py.rsplit1 "." (secure_filename (fs_filename f))) 1 = Ok e →
  from_file orig (Py.lower e) = Some audio →
  export audio "mp3" (TRANSCODE_BITRATE app) = Some mp3 →
  export (Py.slice_to audio (PREVIEW_DURATION app * 1000)) "mp3"
    (TRANSCODE_BITRATE app) = Some preview →
  (∀ n, w_faults w n = false) →
  (String.eqb (STORAGE_MODE app) "postgres" = true →
   orig ≠ [] ∧ mp3 ≠ [] ∧ preview ≠ []) →
  ∃ w', process_track_upload track f app w = (Ok tt, w') ∧
    blob_original app w' (w_heap w' track) = Some orig ∧
    blob_stream app w' (w_heap w' track) = Some mp3 ∧
    blob_preview app w' (w_heap w' track) = Some preview ∧
    fst (get_file_stream_response track "original" app w') =
      Raise (NameError "send_file") ∧
    fst (get_file_stream_response track "mp3" app w') =
      Raise (NameError "send_file") ∧
    fst (get_file_stream_response track "preview" app w') =
      Raise (NameError "send_file").
Proof.
  intros orig Hext Hdec Hmp3 Hprev Hnf Hne.
  destruct (process_track_upload_succeeds track f app w e audio mp3 preview)
    as (w' & Hrun & Ho & Hs & Hp & _ & Hhas & Hfaults); try done.
  exists w'. split; [done|].
  assert (w_faults w' (w_clock w') = false) as Hnf' by (by rewrite Hfaults).
  assert (has_original app (w_heap w' track) = true ∧
          has_stream app (w_heap w' track) = true ∧
          has_preview app (w_heap w' track) = true) as (Hho & Hhs & Hhp).
  { destruct (String.eqb (STORAGE_MODE app) "postgres") eqn:Hpg; [|by apply Hhas].
    destruct Hne as (Hno & Hns & Hnp); [done|].
    unfold has_original, has_stream, has_preview,
      blob_original, blob_stream, blob_preview, blob_at in *.
    rewrite Hpg in *. rewrite Ho, Hs, Hp. fold orig.
    by destruct orig, mp3, preview. }
  repeat split; try done;
    eauto using retrieve_original, retrieve_stream, retrieve_preview.
Qed.

(** The default configuration (local mode) and an upload of three
    bytes. *)
Lemma ingested_bytes_are_not_served_local :
  let f := mkFileStorage "a.wav" [Byte.x01; Byte.x02; Byte.x03] in
  let w := world0 no_faults in
  ∃ w', process_track_upload 0 f BaseConfig w = (Ok tt, w') ∧
    blob_original BaseConfig w' (w_heap w' 0) = Some [Byte.x01; Byte.x02; Byte.x03] ∧
    blob_stream BaseConfig w' (w_heap w' 0) = Some [Byte.x01; Byte.x02; Byte.x03] ∧
    blob_preview BaseConfig w' (w_heap w' 0) = Some [Byte.x01; Byte.x02; Byte.x03] ∧
    fst (get_file_stream_response 0 "original" BaseConfig w') =
      Raise (NameError "send_file") ∧
    fst (get_file_stream_response 0 "mp3" BaseConfig w') =
      Raise (NameError "send_file") ∧
    fst (get_file_stream_response 0 "preview" BaseConfig w') =
      Raise (NameError "send_file").
Proof.
  intros f w.
  apply (ingested_bytes_are_not_served (H := demo) 0 f BaseConfig w "wav"
           [1; 2; 3]%Z [Byte.x01; Byte.x02; Byte.x03]
           [Byte.x01; Byte.x02; Byte.x03]);
    try (vm_compute; reflexivity).
  vm_compute. discriminate.
Defined.

(** ** What [storage_delete] touches *)

(** A loop whose body keeps a component of the world keeps it. *)
Lemma for_each_preserves {A B} (proj : World → B) (l : list A) (body : A → M unit) :
  (∀ x w, proj (snd (body x w)) = proj w) →
  ∀ w, proj (snd (for_each l body w)) = proj w.
Proof.
  intros Hbody. induction l as [|x l IH]; intros w; [done|].
  cbn. unfold mbind, M_bind.
  specialize (Hbody x w). destruct (body x w) as [[[]|e] w1]; cbn in *.
  - by rewrite IH.
  - done.
Qed.

Lemma s3_delete_object_files k w :
  w_files (snd (s3_delete_object k w)) = w_files w.
Proof. unfold_ops. by destruct (w_faults w (w_clock w)). Qed.

Lemma s3_delete_object_heap k w :
  w_heap (snd (s3_delete_object k w)) = w_heap w.
Proof. unfold_ops. by destruct (w_faults w (w_clock w)). Qed.

Lemma s3_delete_object_rows k w :
  w_rows (snd (s3_delete_object k w)) = w_rows w.
Proof. unfold_ops. by destruct (w_faults w (w_clock w)). Qed.

Lemma remove_if_exists_heap (p : option string) w :
  w_heap (snd ((if Py.truthy_str p then
                  os_path_exists (default "" p) ≫= λ e : bool,
                  if e then os_remove (default "" p) else mret tt
                else mret tt) w)) = w_heap w.
Proof.
  destruct (Py.truthy_str p); [|done]. unfold_ops. cbn.
  repeat step; done.
Qed.

(** Outside the mode ['local'], [storage_delete] leaves every file. *)
Lemma storage_delete_files track app w :
  STORAGE_MODE app ≠ "local" →
  w_files (snd (storage_delete track app w)) = w_files w.
Proof.
  intros Hmode%String.eqb_neq. unfold storage_delete, try_except.
  rewrite Hmode.
  destruct (String.eqb (STORAGE_MODE app) "s3").
  - unfold mbind at 1, M_bind, load. cbv beta iota zeta.
    match goal with |- context [for_each ?l ?b w] =>
      pose proof (for_each_preserves w_files l b
                    (λ k w0, s3_delete_object_files (default "" k) w0) w) as Hfiles;
      destruct (for_each l b w) as [[[]|e] w1] end; exact Hfiles.
  - unfold_ops. cbn. by destruct (w_faults w (w_clock w)).
Qed.

(** In the modes ['local'] and ['s3'], [storage_delete] leaves every
    track object as it is; in any other mode it sets the three binary
    fields of its track to null and changes nothing else in the heap. *)
Lemma storage_delete_heap track app w r :
  w_heap (snd (storage_delete track app w)) r =
    if String.eqb (STORAGE_MODE app) "local" || String.eqb (STORAGE_MODE app) "s3"
    then w_heap w r
    else alter (λ t, set_preview_file None (set_mp3_file None (set_original_file None t)))
           track (w_heap w) r.
Proof.
  unfold storage_delete, try_except.
  destruct (String.eqb (STORAGE_MODE app) "local");
    [|destruct (String.eqb (STORAGE_MODE app) "s3")]; cbn [orb].
  - unfold mbind at 1, M_bind, load. cbv beta iota zeta.
    match goal with |- context [for_each ?l ?b w] =>
      pose proof (for_each_preserves w_heap l b remove_if_exists_heap w) as Hheap;
      destruct (for_each l b w) as [[[]|e] w1] end; exact (f_equal (λ h, h r) Hheap).
  - unfold mbind at 1, M_bind, load. cbv beta iota zeta.
    match goal with |- context [for_each ?l ?b w] =>
      pose proof (for_each_preserves w_heap l b
                    (λ k w0, s3_delete_object_heap (default "" k) w0) w) as Hheap;
      destruct (for_each l b w) as [[[]|e] w1] end; exact (f_equal (λ h, h r) Hheap).
  - unfold_ops. cbn.
    destruct (w_faults w (w_clock w)); cbn;
      unfold alter, fn_alter; by repeat case_decide.
Qed.

(** ** C7: [storage_delete] does not raise, and a second call changes nothing *)

Lemma storage_delete_total track app w :
  ∃ w', storage_delete track app w = (Ok tt, w').
Proof.
  unfold storage_delete, try_except.
  match goal with |- context [match ?b w with _ => _ end] =>
    destruct (b w) as [[[]|e] w1] end.
  - by exists w1.
  - unfold logger_exception, modify. eauto.
Qed.

(** Once the files behind the locators are gone, the loop of the
    ['local'] branch does nothing. *)
Lemma remove_loop_done (l : list (option string)) w :
  (∀ p, p ∈ l → Py.truthy_str p = true → w_files w !! default "" p = None) →
  for_each l (λ p,
    if Py.truthy_str p then
      os_path_exists (default "" p) ≫= λ e : bool,
      if e then os_remove (default "" p) else mret tt
    else mret tt) w = (Ok tt, w).
Proof.
  induction l as [|p l IH]; intros Hl; [done|].
  cbn [for_each]. erewrite bind_ok; [apply IH; intros q Hq; apply Hl; by right|].
  cbv beta. destruct (Py.truthy_str p) eqn:Hp; [|done].
  unfold_ops. rewrite (Hl p) by (done || left). done.
Qed.

(** Without faults the loop of the ['local'] branch removes the files
    behind its locators, and nothing else changes. *)
Lemma remove_loop (l : list (option string)) w :
  (∀ n, w_faults w n = false) →
  ∃ w', for_each l (λ p,
    if Py.truthy_str p then
      os_path_exists (default "" p) ≫= λ e : bool,
      if e then os_remove (default "" p) else mret tt
    else mret tt) w = (Ok tt, w') ∧
    (∀ p, p ∈ l → Py.truthy_str p = true → w_files w' !! default "" p = None) ∧
    (∀ q, w_files w !! q = None → w_files w' !! q = None) ∧
    w_heap w' = w_heap w ∧ w_bucket w' = w_bucket w ∧ w_rows w' = w_rows w.
Proof.
  revert w. induction l as [|p l IH]; intros w Hnf.
  { exists w. repeat split; try done. intros p Hp. inversion Hp. }
  assert (∃ w1, (if Py.truthy_str p then
      os_path_exists (default "" p) ≫= λ e : bool,
      if e then os_remove (default "" p) else mret tt
    else mret tt) w = (Ok tt, w1) ∧ (∀ n, w_faults w1 n = false) ∧
    (Py.truthy_str p = true → w_files w1 !! default "" p = None) ∧
    (∀ q, w_files w !! q = None → w_files w1 !! q = None) ∧
    w_heap w1 = w_heap w ∧ w_bucket w1 = w_bucket w ∧ w_rows w1 = w_rows w)
    as (w1 & Hstep & Hnf1 & Hp1 & Hq1 & Hh1 & Hb1 & Hr1).
  { destruct (Py.truthy_str p); [|by exists w].
    unfold_ops. cbn.
    destruct (w_files w !! default "" p) eqn:Hf; cbn.
    - rewrite Hnf. cbn. rewrite Hf. cbn. eexists. split; [done|]. cbn.
      repeat split; try done.
      + intros _. apply lookup_delete_eq.
      + intros q Hq. rewrite lookup_delete. by case_decide.
    - by exists w. }
  destruct (IH w1 Hnf1) as (w' & Hrest & Hl & Hq & Hh & Hb & Hr).
  exists w'. split; [cbn [for_each]; by erewrite bind_ok|].
  repeat split; try congruence.
  - intros q [->|Hin]%elem_of_cons Ht; [|by apply Hl].
    apply Hq. by apply Hp1.
  - intros q Hq0. by apply Hq, Hq1.
Qed.

(** Deleting keys that are not in the bucket leaves the bucket. *)
Lemma s3_loop_bucket (l : list (option string)) w :
  (∀ k, k ∈ l → w_bucket w !! default "" k = None) →
  w_bucket (snd (for_each l (λ k, s3_delete_object (default "" k)) w)) = w_bucket w.
Proof.
  revert w. induction l as [|k l IH]; intros w Hl; [done|].
  cbn [for_each].
  destruct (s3_delete_object (default "" k) w) as [[[]|e] w1] eqn:Hstep.
  - erewrite bind_ok by done.
    assert (w_bucket w1 = w_bucket w) as Hb.
    { unfold_ops. destruct (w_faults w (w_clock w)); simplify_eq. cbn.
      apply delete_id. apply Hl. by left. }
    rewrite IH, Hb; [done|]. intros q Hq. rewrite Hb. apply Hl. by right.
  - erewrite bind_raise by done. cbn.
    unfold_ops. by destruct (w_faults w (w_clock w)); simplify_eq.
Qed.

Lemma s3_loop (l : list (option string)) w :
  (∀ n, w_faults w n = false) →
  ∃ w', for_each l (λ k, s3_delete_object (default "" k)) w = (Ok tt, w') ∧
    (∀ k, k ∈ l → w_bucket w' !! default "" k = None) ∧
    (∀ q, w_bucket w !! q = None → w_bucket w' !! q = None) ∧
    w_heap w' = w_heap w ∧ w_files w' = w_files w ∧ w_rows w' = w_rows w.
Proof.
  revert w. induction l as [|k l IH]; intros w Hnf.
  { exists w. repeat split; try done. intros p Hp. inversion Hp. }
  assert (∃ w1, s3_delete_object (default "" k) w = (Ok tt, w1) ∧
    (∀ n, w_faults w1 n = false) ∧
    w_bucket w1 = delete (default "" k) (w_bucket w) ∧
    w_heap w1 = w_heap w ∧ w_files w1 = w_files w ∧ w_rows w1 = w_rows w)
    as (w1 & Hstep & Hnf1 & Hb1 & Hh1 & Hf1 & Hr1).
  { unfold_ops. rewrite Hnf. cbn. eexists. split; [done|]. done. }
  destruct (IH w1 Hnf1) as (w' & Hrest & Hl & Hq & Hh & Hf & Hr).
  exists w'. split; [cbn [for_each]; by erewrite bind_ok|].
  repeat split; try congruence.
  - intros q [->|Hin]%elem_of_cons; [|by apply Hl].
    apply Hq. rewrite Hb1. apply lookup_delete_eq.
  - intros q Hq0. apply Hq. rewrite Hb1, lookup_delete. by case_decide.
Qed.

(** The rows after a commit. *)
Lemma lookup_commit (h : nat → Track) (s : list nat) (rows : gmap nat Track) k :
  foldr (λ r m, <[r := h r]> m) rows s !! k =
    if decide (k ∈ s) then Some (h k) else rows !! k.
Proof.
  induction s as [|r s IH]; cbn; [done|].
  rewrite lookup_insert. destruct (decide (r = k)) as [->|Hne].
  - rewrite decide_True by left. done.
  - rewrite IH. destruct (decide (k ∈ s)) as [Hin|Hnin].
    + by rewrite decide_True by (by right).
    + rewrite decide_False; [done|]. by intros [->|?]%elem_of_cons.
Qed.

Lemma alter_idemp_null (h : nat → Track) track r :
  let clear := λ h : nat → Track,
    alter (set_preview_file None) track
      (alter (set_mp3_file None) track
         (alter (set_original_file None) track h)) in
  clear (clear h) r = clear h r.
Proof. cbn. unfold alter, fn_alter. by repeat case_decide. Qed.

(** Without faults, a second [storage_delete] leaves the files, the
    bucket, the rows and every track object as the first one left
    them. *)
Lemma storage_delete_idempotent track app w :
  (∀ n, w_faults w n = false) →
  let w1 := snd (storage_delete track app w) in
  let w2 := snd (storage_delete track app w1) in
  w_files w2 = w_files w1 ∧ w_bucket w2 = w_bucket w1 ∧
  w_rows w2 = w_rows w1 ∧ ∀ r, w_heap w2 r = w_heap w1 r.
Proof.
  intros Hnf w1 w2. subst w2 w1. unfold storage_delete, try_except.
  destruct (String.eqb (STORAGE_MODE app) "local");
    [|destruct (String.eqb (STORAGE_MODE app) "s3")].
  - rewrite (bind_ok (load track) _ w (w_heap w track) w eq_refl). cbv beta.
    match goal with |- context [for_each ?l ?b w] =>
      destruct (remove_loop l w Hnf) as (w' & Hrun & Hgone & _ & Hheap & _) end.
    rewrite Hrun. cbn [snd].
    rewrite (bind_ok (load track) _ w' (w_heap w' track) w' eq_refl). cbv beta.
    rewrite Hheap. rewrite (remove_loop_done _ w' Hgone). cbn.
    by rewrite Hheap.
  - rewrite (bind_ok (load track) _ w (w_heap w track) w eq_refl). cbv beta zeta.
    match goal with |- context [for_each ?l ?b w] =>
      destruct (s3_loop l w Hnf) as (w' & Hrun & Hgone & _ & Hheap & _) end.
    rewrite Hrun. cbn [snd].
    rewrite (bind_ok (load track) _ w' (w_heap w' track) w' eq_refl). cbv beta zeta.
    rewrite Hheap.
    match goal with |- context [for_each ?l ?b w'] =>
      pose proof (s3_loop_bucket l w' Hgone) as Hbucket;
      pose proof (for_each_preserves w_files l b
                    (λ k w0, s3_delete_object_files (default "" k) w0) w') as Hfiles;
      pose proof (for_each_preserves w_heap l b
                    (λ k w0, s3_delete_object_heap (default "" k) w0) w') as Hh;
      pose proof (for_each_preserves w_rows l b
                    (λ k w0, s3_delete_object_rows (default "" k) w0) w') as Hrows;
      destruct (for_each l b w') as [[[]|e] w''] end; cbn in *;
      rewrite Hh, Hheap; done.
  - unfold_ops. cbn. rewrite !Hnf. cbn. rewrite !Hnf. cbn.
    split; [done|]. split; [done|]. split.
    + apply map_eq. intros k. rewrite !lookup_commit.
      case_decide; [|done]. f_equal.
      apply (alter_idemp_null (w_heap w) track k).
    + intros r. apply (alter_idemp_null (w_heap w) track r).
Qed.

(** C7: [storage_delete] returns normally from every world, whatever the
    track's locators are and whichever of its filesystem, S3 or database
    calls fail; so a second call on the world the first one leaves
    returns normally too, and when no call fails it changes neither the
    files, nor the bucket, nor the rows, nor any track object. The
    [except] block of [upload] that calls it ends by flashing the
    exception that [upload] caught, and renders the form. *)
Theorem storage_delete_never_raises `{External} :
  (∀ track app w, ∃ w', storage_delete track app w = (Ok tt, w')) ∧
  (∀ track app w, ∃ w' w'',
     storage_delete track app w = (Ok tt, w') ∧
     storage_delete track app w' = (Ok tt, w'')) ∧
  (∀ track app w,
     (∀ n, w_faults w n = false) →
     let w1 := snd (storage_delete track app w) in
     let w2 := snd (storage_delete track app w1) in
     w_files w2 = w_files w1 ∧ w_bucket w2 = w_bucket w1 ∧
     w_rows w2 = w_rows w1 ∧ ∀ r, w_heap w2 r = w_heap w1 r) ∧
  (∀ track app e w, ∃ w',
     upload_except track app e w = (Ok (Render "upload.html"), w') ∧
     last (w_flashes w') = Some ("Upload failed: " +:+ exn_str e, "danger")).
Proof.
  pose proof storage_delete_total as Htotal.
  split; [exact Htotal|]. split; [|split].
  - intros track app w. destruct (Htotal track app w) as [w' Hw'].
    destruct (Htotal track app w') as [w'' Hw'']. eauto.
  - exact storage_delete_idempotent.
  - intros track app e w. unfold upload_except.
    unfold mbind at 1, M_bind, db_rollback, modify.
    unfold mbind at 1, M_bind.
    match goal with |- context [storage_delete track app ?w0] =>
      destruct (Htotal track app w0) as [w1 ->] end.
    unfold_ops. cbn. eexists. split; [reflexivity|]. cbn.
    by rewrite last_snoc.
Qed.

(** A track in local mode with its original on disk: the first cleanup
    removes the file, the second finds nothing to do. *)
Lemma storage_delete_twice :
  let t := set_file_path (Some "uploads/7/a_orig.wav") (new_Track 7 "a" "") in
  let w := world_of t {[ "uploads/7/a_orig.wav" := [Byte.x52] ]} ∅ no_faults in
  let w1 := snd (storage_delete 0 BaseConfig w) in
  let w2 := snd (storage_delete 0 BaseConfig w1) in
  w_files w1 = ∅ ∧ w_files w2 = w_files w1.
Proof.
  intros t w w1 w2. split; [vm_compute; reflexivity|].
  apply (proj1 (proj2 (proj2 (storage_delete_never_raises (H := demo)))) 0 BaseConfig w).
  reflexivity.
Defined.

(** ** C9: a mode that is none of the three names *)

(** In the mode ['local'] and without faults, the files behind the three
    path locators are gone after [storage_delete]. *)
Lemma storage_delete_local_removes track app w p :
  STORAGE_MODE app = "local" →
  (∀ n, w_faults w n = false) →
  p ∈ [file_path (w_heap w track); mp3_path (w_heap w track);
       preview_path (w_heap w track)] →
  Py.truthy_str p = true →
  w_files (snd (storage_delete track app w)) !! default "" p = None.
Proof.
  intros Hmode Hnf Hin Hp. unfold storage_delete, try_except.
  rewrite Hmode. cbn [String.eqb Ascii.eqb Bool.eqb].
  rewrite (bind_ok (load track) _ w (w_heap w track) w eq_refl). cbv beta.
  match goal with |- context [for_each ?l ?b w] =>
    destruct (remove_loop l w Hnf) as (w' & Hrun & Hgone & _) end.
  rewrite Hrun. cbn [snd]. apply Hgone; [|done].
  revert Hin. rewrite !elem_of_cons, !elem_of_nil. tauto.
Qed.

(** C9: under a storage mode that is neither ['postgres'] nor ['s3'], an
    ingestion that succeeds writes the three blobs to files and sets the
    three path locators. [storage_delete] removes these files when the
    mode is exactly ['local']; under any other such mode (a misspelling
    of ['local'], say) it takes its last branch, which sets the binary
    fields to null, and removes none of the files. More generally
    [storage_delete] leaves every file in place whenever the mode is not
    exactly ['local']. *)
Theorem unknown_mode_files_survive_cleanup `{External}
    track f app w e (audio : AudioSegment) mp3 preview :
  STORAGE_MODE app ≠ "postgres" →
  STORAGE_MODE app ≠ "s3" →
  Py.index (Py.rsplit1 "." (secure_filename (fs_filename f))) 1 = Ok e →
  from_file (drop (w_stream_pos w) (fs_stream f)) (Py.lower e) = Some audio →
  export audio "mp3" (TRANSCODE_BITRATE app) = Some mp3 →
  export (Py.slice_to audio (PREVIEW_DURATION app * 1000)) "mp3"
    (TRANSCODE_BITRATE app) = Some preview →
  (∀ n, w_faults w n = false) →
  (∃ w' p1 p2 p3,
     process_track_upload track f app w = (Ok tt, w') ∧
     file_path (w_heap w' track) = Some p1 ∧
     mp3_path (w_heap w' track) = Some p2 ∧
     preview_path (w_heap w' track) = Some p3 ∧
     w_files w' !! p1 = Some (drop (w_stream_pos w) (fs_stream f)) ∧
     w_files w' !! p2 = Some mp3 ∧
     w_files w' !! p3 = Some preview ∧
     let w'' := snd (storage_delete track app w') in
     (STORAGE_MODE app = "local" →
      w_files w'' !! p1 = None ∧ w_files w'' !! p2 = None ∧
      w_files w'' !! p3 = None) ∧
     (STORAGE_MODE app ≠ "local" →
      w_files w'' = w_files w' ∧
      original_file (w_heap w'' track) = None ∧
      mp3_file (w_heap w'' track) = None ∧
      preview_file (w_heap w'' track) = None)) ∧
  (∀ w0, STORAGE_MODE app ≠ "local" →
         w_files (snd (storage_delete track app w0)) = w_files w0).
Proof.
  intros Hpg Hs3 Hext Hdec Hmp3 Hprev Hnf.
  split; [|intros w0 Hlocal; by apply storage_delete_files].
  destruct (process_track_upload_succeeds track f app w e audio mp3 preview)
    as (w' & Hrun & Ho & Hs & Hp & _ & Hhas & Hfaults); try done.
  unfold blob_original, blob_stream, blob_preview, blob_at,
    has_original, has_stream, has_preview in *.
  apply String.eqb_neq in Hpg, Hs3. rewrite Hpg, Hs3 in *.
  destruct (Hhas eq_refl) as (Ht1 & Ht2 & Ht3).
  apply bind_Some in Ho as (p1 & Hp1 & Hf1).
  apply bind_Some in Hs as (p2 & Hp2 & Hf2).
  apply bind_Some in Hp as (p3 & Hp3 & Hf3).
  exists w', p1, p2, p3. repeat split; try done.
  - change p1 with (default "" (Some p1)).
    apply storage_delete_local_removes; try done;
      [by rewrite Hfaults | rewrite <- Hp1, !elem_of_cons; auto | by rewrite <- Hp1].
  - change p2 with (default "" (Some p2)).
    apply storage_delete_local_removes; try done;
      [by rewrite Hfaults | rewrite <- Hp2, !elem_of_cons; auto | by rewrite <- Hp2].
  - change p3 with (default "" (Some p3)).
    apply storage_delete_local_removes; try done;
      [by rewrite Hfaults | rewrite <- Hp3, !elem_of_cons; auto | by rewrite <- Hp3].
  - by apply storage_delete_files.
  - rewrite storage_delete_heap.
    match goal with Hl : _ ≠ "local" |- _ => apply String.eqb_neq in Hl; rewrite Hl end.
    rewrite Hs3. cbn. by rewrite fn_lookup_alter.
  - rewrite storage_delete_heap.
    match goal with Hl : _ ≠ "local" |- _ => apply String.eqb_neq in Hl; rewrite Hl end.
    rewrite Hs3. cbn. by rewrite fn_lookup_alter.
  - rewrite storage_delete_heap.
    match goal with Hl : _ ≠ "local" |- _ => apply String.eqb_neq in Hl; rewrite Hl end.
    rewrite Hs3. cbn. by rewrite fn_lookup_alter.
Qed.

(** The mode ['Local'], a misspelling of ['local']: the three blobs are
    on disk after ingestion and still there after the cleanup. *)
Lemma misspelled_local_files_survive :
  let f := mkFileStorage "a.wav" [Byte.x01; Byte.x02; Byte.x03] in
  let app := with_mode "Local" BaseConfig in
  let w := world0 no_faults in
  ∃ w' p1 p2 p3,
    process_track_upload 0 f app w = (Ok tt, w') ∧
    file_path (w_heap w' 0) = Some p1 ∧
    mp3_path (w_heap w' 0) = Some p2 ∧
    preview_path (w_heap w' 0) = Some p3 ∧
    w_files w' !! p1 = Some [Byte.x01; Byte.x02; Byte.x03] ∧
    w_files w' !! p2 = Some [Byte.x01; Byte.x02; Byte.x03] ∧
    w_files w' !! p3 = Some [Byte.x01; Byte.x02; Byte.x03] ∧
    w_files (snd (storage_delete 0 app w')) = w_files w'.
Proof.
  intros f app w.
  destruct (unknown_mode_files_survive_cleanup (H := demo) 0 f app w
              "wav" [1; 2; 3]%Z
              [Byte.x01; Byte.x02; Byte.x03] [Byte.x01; Byte.x02; Byte.x03])
    as [(w' & p1 & p2 & p3 & Hrun & H1 & H2 & H3 & F1 & F2 & F3 & _ & Hother) _];
    try (vm_compute; reflexivity); try (vm_compute; discriminate).
  exists w', p1, p2, p3. repeat split; try assumption.
  apply Hother. vm_compute. discriminate.
Defined.

(** ** C2: the locators of a track after ingestion *)

(** With the three locators of the mode's field set null before the
    call, [process_track_upload] leaves them all set when it returns
    normally and when its final [db.session.flush()] raises, and all null
    when anything before that raises. *)
Lemma process_track_upload_locators `{External} track f app w :
  locators_all_null app (w_heap w track) →
  match fst (process_track_upload track f app w) with
  | Ok _ | Raise SQLAlchemyError =>
      locators_all_set app (w_heap (snd (process_track_upload track f app w)) track)
  | Raise _ =>
      locators_all_null app (w_heap (snd (process_track_upload track f app w)) track)
  end.
Proof.
  intros Hnull. unfold locators_all_null, locators_all_set in *.
  unfold process_track_upload. unfold_ops. cbn.
  repeat step; index_cases;
    rewrite ?fn_lookup_alter; cbn; try done; eauto 10.
Qed.

(** [process_track_upload] creates no object and commits no row. *)
Lemma process_track_upload_frame `{External} track f app w :
  w_rows (snd (process_track_upload track f app w)) = w_rows w ∧
  w_next_ref (snd (process_track_upload track f app w)) = w_next_ref w ∧
  (∀ r, r ∈ w_session w →
        r ∈ w_session (snd (process_track_upload track f app w))).
Proof.
  unfold process_track_upload. unfold_ops. cbn.
  repeat step; repeat split; try done;
    intros r Hr; try done; apply elem_of_app; by left.
Qed.

Lemma locators_null_or_set_dec app t :
  locators_all_set app t → ¬ locators_all_null app t.
Proof.
  unfold locators_all_set, locators_all_null.
  destruct (String.eqb (STORAGE_MODE app) "postgres");
    [|destruct (String.eqb (STORAGE_MODE app) "s3")];
    intros ([x Hx] & _) (Hn & _); congruence.
Qed.

(** The cleanup keeps a track's locators all null or all set; in
    postgres mode it leaves them all null. *)
Lemma storage_delete_locators track app w :
  let t := w_heap w track in
  let t' := w_heap (snd (storage_delete track app w)) track in
  (locators_all_null app t → locators_all_null app t') ∧
  (locators_all_set app t →
   if String.eqb (STORAGE_MODE app) "postgres" then locators_all_null app t'
   else locators_all_set app t').
Proof.
  intros t t'. unfold t'. rewrite storage_delete_heap.
  unfold locators_all_null, locators_all_set, t.
  destruct (String.eqb_spec (STORAGE_MODE app) "postgres") as [->|_]; cbn.
  - rewrite fn_lookup_alter. cbn. done.
  - destruct (String.eqb (STORAGE_MODE app) "s3"); cbn.
    + by rewrite orb_true_r.
    + rewrite orb_false_r.
      destruct (String.eqb (STORAGE_MODE app) "local"); [done|].
      rewrite fn_lookup_alter. cbn. done.
Qed.

Lemma locators_new_Track app o ti de : locators_all_null app (new_Track o ti de).
Proof. unfold locators_all_null. by repeat case_match. Qed.

Lemma pure_choice {A} (c : bool) (a : A) (r : res A) w :
  ∃ x, (if c then mret a else lift r) w = (x, w).
Proof. destruct c; unfold_ops; eauto. Qed.

(** The [except] block of [upload], run on a track that has no committed
    row: it renders the form, and the track's locators are as the
    cleanup leaves them. *)
Lemma upload_except_locators `{External} track app e w :
  w_rows w !! track = None →
  let w' := snd (upload_except track app e w) in
  fst (upload_except track app e w) = Ok (Render "upload.html") ∧
  (locators_all_null app (w_heap w track) →
   locators_all_null app (w_heap w' track)) ∧
  (locators_all_set app (w_heap w track) →
   if String.eqb (STORAGE_MODE app) "postgres"
   then locators_all_null app (w_heap w' track)
   else locators_all_set app (w_heap w' track)).
Proof.
  intros Hrow w'. subst w'.
  destruct (upload_except track app e w) as [r w'] eqn:Hup. cbn [fst snd].
  unfold upload_except in Hup.
  unfold mbind at 1, M_bind, db_rollback, modify in Hup.
  unfold mbind at 1, M_bind in Hup.
  match type of Hup with context [storage_delete track app ?w0] =>
    pose proof (storage_delete_locators track app w0) as [Hnull Hset];
    destruct (storage_delete_total track app w0) as [w1 Hdel];
    rewrite Hdel in Hup, Hnull, Hset
  end.
  cbn in Hnull, Hset. rewrite Hrow in Hnull, Hset. cbn in Hnull, Hset.
  assert (∀ t : Track, (if bool_decide (track ∈ w_session w) then t else t) = t)
    as Hif by (intros; by case_bool_decide).
  rewrite Hif in Hnull, Hset.
  unfold_ops. cbn in Hup. simplify_eq. cbn. done.
Qed.

Lemma upload_locators `{External} req app w :
  w_rows w !! w_next_ref w = None →
  let track := w_next_ref w in
  let r := fst (upload req app w) in
  let w' := snd (upload req app w) in
  w_next_ref w' = S track →
  (locators_all_null app (w_heap w' track) ∨
   locators_all_set app (w_heap w' track)) ∧
  (∀ id, r = Ok (Redirect "track" id) → locators_all_set app (w_heap w' track)) ∧
  (STORAGE_MODE app = "postgres" → r = Ok (Render "upload.html") →
   locators_all_null app (w_heap w' track)).
Proof.
  intros Hfresh track r w'. subst r w'.
  destruct (upload req app w) as [r w'] eqn:Hup. cbn [fst snd].
  unfold upload in Hup.
  destruct (validate_on_submit req); [|unfold_ops; simplify_eq; lia].
  unfold mbind at 1, M_bind in Hup. unfold lift at 1 in Hup.
  destruct (allowed_file _ _) as [[]|]; cbv beta iota in Hup; cbn [negb] in Hup;
    try (unfold_ops; cbn in Hup; simplify_eq; cbn; lia).
  unfold mbind at 1, M_bind in Hup.
  match type of Hup with context [(if ?c then mret ?a else lift ?x) w] =>
    destruct (pure_choice c a x w) as [[ti|e] Hti]; rewrite Hti in Hup end;
    cbv beta iota in Hup; [|simplify_eq; lia].
  clear Hti.
  unfold alloc, db_add, db_flush, io, modify, try_except in Hup.
  unfold mbind at 1, M_bind in Hup. unfold mbind at 1, M_bind in Hup.
  unfold mbind at 1, M_bind in Hup. cbn in Hup.
  destruct (w_faults w (w_clock w)); cbn in Hup.
  { simplify_eq. cbn. intros _. rewrite fn_lookup_insert.
    split; [left; apply locators_new_Track|]. split; [done|].
    intros _ _. apply locators_new_Track. }
  unfold mbind at 1, M_bind in Hup.
  match type of Hup with context [process_track_upload ?t ?f ?a ?w1] =>
    pose proof (process_track_upload_locators t f a w1) as Hloc;
    pose proof (process_track_upload_frame t f a w1) as (Hrows & _);
    destruct (process_track_upload t f a w1) as [[[]|e] w2]
  end; cbn in Hloc, Hrows.
  all: rewrite fn_lookup_insert in Hloc;
    specialize (Hloc (locators_new_Track _ _ _ _)).
  all: intros _; fold track in Hloc, Hup.
  - unfold db_commit, flash, io, modify in Hup.
    unfold mbind, M_bind, mret, M_ret in Hup.
    destruct (w_faults w2 (w_clock w2)); cbn in Hup.
    + destruct (upload_except_locators track app SQLAlchemyError
                  (with_clock (S (w_clock w2)) w2)) as (Hr & _ & Hset).
      { cbn. by rewrite Hrows. }
      rewrite Hup in Hr, Hset. cbn in Hr, Hset. specialize (Hset Hloc).
      subst r. split; [|split; [done|]].
      * destruct (String.eqb (STORAGE_MODE app) "postgres"); auto.
      * intros Hpg _. by rewrite Hpg in Hset.
    + simplify_eq. cbn. split; [by right|]. split; [done|]. done.
  - destruct (upload_except_locators track app e w2) as (Hr & Hnull & Hset).
    { by rewrite Hrows. }
    rewrite Hup in Hr, Hnull, Hset. cbn in Hr, Hnull, Hset. subst r.
    assert (locators_all_null app (w_heap w2 track) ∨
            locators_all_set app (w_heap w2 track)) as [Hn|Hs]
      by (destruct e; auto).
    + specialize (Hnull Hn). split; [by left|]. split; [done|]. done.
    + specialize (Hset Hs). split; [|split; [done|]].
      * destruct (String.eqb (STORAGE_MODE app) "postgres"); auto.
      * intros Hpg _. by rewrite Hpg in Hset.
Qed.

(** C2, as the code has it: with the three locators of the mode's field
    set null before the call, after [process_track_upload] they are
    either all null or all set, never mixed; they are all set when it
    returns normally, all null when it raises before its final
    [db.session.flush()], and all set when that flush is what raises.
    After the whole [upload] view, the locators of the track it created
    are again all null or all set; they are all set when the view
    redirects to the track, and in postgres mode they are all null when
    it renders the form again. *)
Theorem locators_never_mixed `{External} :
  (∀ track f app w,
     locators_all_null app (w_heap w track) →
     let r := fst (process_track_upload track f app w) in
     let t' := w_heap (snd (process_track_upload track f app w)) track in
     (locators_all_null app t' ∨ locators_all_set app t') ∧
     (r = Ok tt → locators_all_set app t') ∧
     (∀ e, r = Raise e → e ≠ SQLAlchemyError → locators_all_null app t') ∧
     (r = Raise SQLAlchemyError → locators_all_set app t')) ∧
  (∀ req app w,
     w_rows w !! w_next_ref w = None →
     let r := fst (upload req app w) in
     let w' := snd (upload req app w) in
     let t' := w_heap w' (w_next_ref w) in
     w_next_ref w' = S (w_next_ref w) →
     (locators_all_null app t' ∨ locators_all_set app t') ∧
     (∀ id, r = Ok (Redirect "track" id) → locators_all_set app t') ∧
     (STORAGE_MODE app = "postgres" → r = Ok (Render "upload.html") →
      locators_all_null app t')).
Proof.
  split.
  - intros track f app w Hnull r t'. subst r t'.
    pose proof (process_track_upload_locators track f app w Hnull) as Hloc.
    destruct (fst (process_track_upload track f app w)) as [[]|e].
    + repeat split; auto; try done.
    + destruct e; repeat split; auto; try done; congruence.
  - intros req app w Hfresh. by apply upload_locators.
Qed.

(** The default configuration, an upload that decodes, and no fault: the
    three path locators are null before and set after. *)
Lemma locators_set_after_upload :
  let f := mkFileStorage "a.wav" [Byte.x01; Byte.x02; Byte.x03] in
  let w := world0 no_faults in
  locators_all_null BaseConfig (w_heap w 0) ∧
  fst (process_track_upload 0 f BaseConfig w) = Ok tt ∧
  locators_all_set BaseConfig
    (w_heap (snd (process_track_upload 0 f BaseConfig w)) 0).
Proof.
  intros f w.
  assert (locators_all_null BaseConfig (w_heap w 0)) as Hnull
    by (vm_compute; done).
  assert (fst (process_track_upload 0 f BaseConfig w) = Ok tt) as Hok
    by (vm_compute; reflexivity).
  split; [exact Hnull|]. split; [exact Hok|].
  exact (proj1 (proj2 (proj1 (locators_never_mixed (H := demo))
                         0 f BaseConfig w Hnull)) Hok).
Defined.

(** Locators all null whenever the call fails: this does not hold. In
    local mode, when the three files are written and
    the final flush then fails, the call raises and the three path
    locators are set. *)
Lemma failed_flush_keeps_locators :
  let f := mkFileStorage "a.wav" [Byte.x01; Byte.x02; Byte.x03] in
  let w := world0 (fault_at 7) in
  let w' := snd (process_track_upload 0 f BaseConfig w) in
  locators_all_null BaseConfig (w_heap w 0) ∧
  fst (process_track_upload 0 f BaseConfig w) = Raise SQLAlchemyError ∧
  locators_all_set BaseConfig (w_heap w' 0) ∧
  ¬ locators_all_null BaseConfig (w_heap w' 0).
Proof.
  intros f w w'.
  assert (locators_all_set BaseConfig (w_heap w' 0)) as Hset
    by (vm_compute; repeat split; eexists; reflexivity).
  split; [vm_compute; done|]. split; [vm_compute; reflexivity|].
  split; [exact Hset|].
  by apply locators_null_or_set_dec.
Qed.

(** ** C1: a write that fails after others succeeded *)

(** Without locators on the track, the cleanup finds nothing to delete:
    in the modes ['local'] and ['s3'] it leaves files and bucket as they
    are. *)
Lemma storage_delete_without_locators track app w :
  file_path (w_heap w track) = None →
  mp3_path (w_heap w track) = None →
  preview_path (w_heap w track) = None →
  s3_key (w_heap w track) = None →
  s3_mp3_key (w_heap w track) = None →
  s3_preview_key (w_heap w track) = None →
  w_files (snd (storage_delete track app w)) = w_files w ∧
  w_bucket (snd (storage_delete track app w)) = w_bucket w.
Proof.
  intros H1 H2 H3 H4 H5 H6. unfold storage_delete. unfold_ops.
  destruct (String.eqb (STORAGE_MODE app) "local");
    [|destruct (String.eqb (STORAGE_MODE app) "s3")]; cbn;
    rewrite ?H1, ?H2, ?H3, ?H4, ?H5, ?H6; cbn; try done.
  by destruct (w_faults w (w_clock w)).
Qed.

(** So when [process_track_upload] raises before its final flush, in the
    mode ['local'] or ['s3'] and on a track that had no locator, the
    cleanup deletes nothing of what was written. *)
Lemma cleanup_after_failed_write `{External} track f app w e w' :
  STORAGE_MODE app = "local" ∨ STORAGE_MODE app = "s3" →
  locators_all_null app (w_heap w track) →
  process_track_upload track f app w = (Raise e, w') →
  e ≠ SQLAlchemyError →
  w_files (snd (storage_delete track app w')) = w_files w' ∧
  w_bucket (snd (storage_delete track app w')) = w_bucket w'.
Proof.
  intros Hmode Hnull Hrun He.
  pose proof (process_track_upload_locators track f app w Hnull) as Hloc.
  rewrite Hrun in Hloc. cbn in Hloc.
  assert (locators_all_null app (w_heap w' track)) as Hnull'
    by (by destruct e).
  clear Hloc. unfold locators_all_null in Hnull'.
  unfold storage_delete. unfold_ops.
  destruct Hmode as [Hm|Hm]; rewrite Hm in *; cbn in *;
    destruct Hnull' as (-> & -> & ->); done.
Qed.

(** C1, at the input where the code departs from it: an upload in local
    mode during which the original and the stream copy are written and
    opening the preview file fails. The view reports the failure, the
    track has no locator, and both files written before the failure are
    still on disk after the cleanup. The same happens in s3 mode when
    the third [put_object] fails. *)
Theorem failed_write_leaves_blobs :
  let req := mkRequest true 7 "" ""
               (mkFileStorage "song.mp3" [Byte.x01; Byte.x02; Byte.x03]) in
  let w1 := snd (upload req BaseConfig (world0 (fault_at 6))) in
  let s3 := with_mode "s3" BaseConfig in
  let w2 := snd (upload req s3 (world0 (fault_at 3))) in
  (fst (upload req BaseConfig (world0 (fault_at 6))) = Ok (Render "upload.html") ∧
   w_flashes w1 = [("Upload failed: OSError", "danger")] ∧
   locators_all_null BaseConfig (w_heap w1 0) ∧
   w_files w1 !! "uploads/7/00000000000000000000000000000000_orig.mp3" =
     Some [Byte.x01; Byte.x02; Byte.x03] ∧
   w_files w1 !! "uploads/7/00000000000000000000000000000001_stream.mp3" =
     Some [Byte.x01; Byte.x02; Byte.x03]) ∧
  (fst (upload req s3 (world0 (fault_at 3))) = Ok (Render "upload.html") ∧
   w_flashes w2 = [("Upload failed: ClientError", "danger")] ∧
   locators_all_null s3 (w_heap w2 0) ∧
   s3_body <$> w_bucket w2 !! "tracks/7/00000000000000000000000000000000/original.mp3" =
     Some [Byte.x01; Byte.x02; Byte.x03] ∧
   s3_body <$> w_bucket w2 !! "tracks/7/00000000000000000000000000000000/stream.mp3" =
     Some [Byte.x01; Byte.x02; Byte.x03]).
Proof. vm_compute. repeat split. Qed.

(** * Further properties *)

(** ** More on [process_track_upload] *)

(** X1: When [process_track_upload] raises because the name has no
    extension, the upload does not decode, or an encoding fails, it has
    made no fallible call and has left files, bucket, rows, session and
    the locators of every track as they were. *)
Theorem ingestion_fails_before_storage `{External} track f app w e :
  fst (process_track_upload track f app w) = Raise e →
  e = IndexError ∨ e = CouldntDecodeError ∨ e = CouldntEncodeError →
  let w' := snd (process_track_upload track f app w) in
  w_clock w' = w_clock w ∧
  w_files w' = w_files w ∧
  w_bucket w' = w_bucket w ∧
  w_rows w' = w_rows w ∧
  w_session w' = w_session w ∧
  ∀ r, blob_original app w' (w_heap w' r) = blob_original app w (w_heap w r) ∧
       blob_stream app w' (w_heap w' r) = blob_stream app w (w_heap w r) ∧
       blob_preview app w' (w_heap w' r) = blob_preview app w (w_heap w r).
Proof.
  intros Hr He.
  assert (e ≠ OSError ∧ e ≠ ClientError ∧ e ≠ SQLAlchemyError) as (H1 & H2 & H3)
    by (destruct He as [->|[->| ->]]; done).
  clear He. revert Hr. unfold process_track_upload. unfold_ops. cbn.
  unfold blob_original, blob_stream, blob_preview, blob_at.
  repeat step; intros [= <-]; try done;
    repeat split; try done;
    unfold alter, fn_alter; repeat case_decide; subst; done.
Qed.

(** An empty upload under [demo]: the decoder refuses it. *)
Lemma empty_upload_touches_nothing :
  let f := mkFileStorage "a.wav" [] in
  let w := world0 no_faults in
  fst (process_track_upload 0 f BaseConfig w) = Raise CouldntDecodeError ∧
  w_clock (snd (process_track_upload 0 f BaseConfig w)) = 0 ∧
  w_files (snd (process_track_upload 0 f BaseConfig w)) = ∅.
Proof.
  intros f w.
  assert (fst (process_track_upload 0 f BaseConfig w) = Raise CouldntDecodeError)
    as Hr by (vm_compute; reflexivity).
  destruct (ingestion_fails_before_storage (H := demo) 0 f BaseConfig w _ Hr)
    as (Hc & Hf & _); [auto|].
  split; [exact Hr|]. split; [exact Hc | exact Hf].
Defined.

(** X2: What a successful ingestion writes on the track besides the
    locators: the duration in whole seconds (truncated), the secured
    file name and the MIME type [audio/mpeg], whatever the format of the
    upload; owner, title and description stay. *)
Theorem ingestion_sets_metadata `{External}
    track f app w w' e (audio : AudioSegment) :
  Py.index (Py.rsplit1 "." (secure_filename (fs_filename f))) 1 = Ok e →
  from_file (drop (w_stream_pos w) (fs_stream f)) (Py.lower e) = Some audio →
  process_track_upload track f app w = (Ok tt, w') →
  let t := w_heap w track in
  let t' := w_heap w' track in
  duration t' = Some (Z.of_nat (length audio) `quot` 1000)%Z ∧
  original_filename t' = Some (secure_filename (fs_filename f)) ∧
  mime_type t' = Some "audio/mpeg" ∧
  owner_id t' = owner_id t ∧ title t' = title t ∧
  description t' = description t ∧
  w_stream_pos w' = length (fs_stream f).
Proof.
  intros Hext Hdec. unfold process_track_upload. unfold_ops. cbn.
  rewrite Hext. cbn. rewrite Hdec. cbn.
  repeat step; intros [= <-]; cbn;
    rewrite ?fn_lookup_alter; cbn; repeat split; reflexivity.
Qed.

(** 2500 ms of audio give a duration of 2 seconds. *)
Lemma duration_is_truncated :
  let f := mkFileStorage "a.wav" (repeat Byte.x01 2500) in
  let w := world0 no_faults in
  duration (w_heap (snd (process_track_upload 0 f BaseConfig w)) 0) = Some 2%Z ∧
  mime_type (w_heap (snd (process_track_upload 0 f BaseConfig w)) 0) =
    Some "audio/mpeg".
Proof.
  intros f w.
  destruct (process_track_upload 0 f BaseConfig w) as [r w'] eqn:Hrun.
  assert (r = Ok tt) as -> by (apply (f_equal fst) in Hrun; vm_compute in Hrun; congruence).
  destruct (ingestion_sets_metadata (H := demo) 0 f BaseConfig w w' "wav"
              (repeat 1%Z 2500)) as (Hd & _ & Hm & _);
    [vm_compute; reflexivity | vm_compute; reflexivity | exact Hrun |].
  split; [exact Hd | exact Hm].
Defined.

(** X3: [process_track_upload] removes nothing and commits nothing: every
    file and every object of the bucket that existed before the call
    exists after it, whatever the outcome, and the rows are as before. *)
Theorem ingestion_never_removes `{External} track f app w :
  let w' := snd (process_track_upload track f app w) in
  (∀ p, is_Some (w_files w !! p) → is_Some (w_files w' !! p)) ∧
  (∀ k, is_Some (w_bucket w !! k) → is_Some (w_bucket w' !! k)) ∧
  w_rows w' = w_rows w.
Proof.
  unfold process_track_upload. unfold_ops. cbn.
  repeat step; repeat split; try done;
    intros p Hp; rewrite ?lookup_insert_is_Some'; auto 10.
Qed.

(** X4: The three blobs of one ingestion never share a location: in the s3
    and local modes the three locators that a successful call sets are
    pairwise different, whatever [uuid4] returns. *)
Theorem ingestion_locators_distinct `{External} track f app w w' :
  String.eqb (STORAGE_MODE app) "postgres" = false →
  process_track_upload track f app w = (Ok tt, w') →
  let t' := w_heap w' track in
  if String.eqb (STORAGE_MODE app) "s3" then
    s3_key t' ≠ s3_mp3_key t' ∧ s3_key t' ≠ s3_preview_key t' ∧
    s3_mp3_key t' ≠ s3_preview_key t'
  else
    file_path t' ≠ mp3_path t' ∧ file_path t' ≠ preview_path t' ∧
    mp3_path t' ≠ preview_path t'.
Proof.
  intros Hpg. unfold process_track_upload. unfold_ops. cbn. rewrite Hpg.
  destruct (String.eqb (STORAGE_MODE app) "s3");
    repeat step; intros [= <-]; cbn; rewrite ?fn_lookup_alter; cbn;
    repeat split; intros [= Heq]; revert Heq;
    first [ apply key_ne | apply path_join_ne ]; auto with suffixes.
Qed.

Lemma ingestion_locators_distinct_local :
  let f := mkFileStorage "a.wav" [Byte.x01] in
  let w := world0 (λ _, false) in
  let w' := snd (process_track_upload 0 f BaseConfig w) in
  file_path (w_heap w' 0) ≠ mp3_path (w_heap w' 0) ∧
  file_path (w_heap w' 0) ≠ preview_path (w_heap w' 0) ∧
  mp3_path (w_heap w' 0) ≠ preview_path (w_heap w' 0).
Proof.
  intros f w w'.
  apply (ingestion_locators_distinct (H := demo) 0 f BaseConfig w w');
    vm_compute; reflexivity.
Defined.

(** ** More on retrieval *)

Lemma key_nonempty x y :
  match ("tracks/" +:+ x) +:+ y with "" => false | String _ _ => true end = true.
Proof. reflexivity. Qed.

Lemma path_nonempty a b :
  match path_join a b with "" => false | String _ _ => true end = true.
Proof. exact (truthy_path_join a b). Qed.

(** X5: The objects that a successful ingestion in s3 mode leaves in the
    bucket: under the prefix [tracks/<owner_id>/<uuid hex>], the original
    is the object [original.<ext>] with the uploaded bytes and the
    content type [audio/<ext>], the transcoding is [stream.mp3] and the
    clip [preview.mp3], both with the content type [audio/mpeg]; the
    three keys are the track's locators. The track's own [mime_type] is
    [audio/mpeg] whatever the format of the original. *)
Theorem ingestion_s3_objects `{External}
    track f app w e (audio : AudioSegment) mp3 preview :
  let orig := drop (w_stream_pos w) (fs_stream f) in
  let base := "tracks/" +:+ pretty (owner_id (w_heap w track)) +:+ "/" +:+
              Py.hex32 (w_entropy w (w_uuids w)) in
  STORAGE_MODE app = "s3" →
  Py.index (Py.rsplit1 "." (secure_filename (fs_filename f))) 1 = Ok e →
  from_file orig (Py.lower e) = Some audio →
  export audio "mp3" (TRANSCODE_BITRATE app) = Some mp3 →
  export (Py.slice_to audio (PREVIEW_DURATION app * 1000)) "mp3"
    (TRANSCODE_BITRATE app) = Some preview →
  (∀ n, w_faults w n = false) →
  ∃ w', process_track_upload track f app w = (Ok tt, w') ∧
    s3_key (w_heap w' track) = Some (base +:+ "/original." +:+ Py.lower e) ∧
    s3_mp3_key (w_heap w' track) = Some (base +:+ "/stream.mp3") ∧
    s3_preview_key (w_heap w' track) = Some (base +:+ "/preview.mp3") ∧
    w_bucket w' !! (base +:+ "/original." +:+ Py.lower e) =
      Some (mkS3Object orig ("audio/" +:+ Py.lower e)) ∧
    w_bucket w' !! (base +:+ "/stream.mp3") = Some (mkS3Object mp3 "audio/mpeg") ∧
    w_bucket w' !! (base +:+ "/preview.mp3") =
      Some (mkS3Object preview "audio/mpeg") ∧
    mime_type (w_heap w' track) = Some "audio/mpeg".
Proof.
  intros orig base Hmode Hext Hdec Hmp3 Hprev Hnf. subst orig base.
  unfold process_track_upload. unfold_ops. cbn.
  rewrite Hext. cbn. rewrite Hdec. cbn. rewrite Hmp3. cbn. rewrite Hprev. cbn.
  rewrite Hmode. change (String.eqb "s3" "postgres") with false.
  change (String.eqb "s3" "s3") with true. cbn.
  repeat (rewrite !Hnf; cbn).
  eexists. split; [reflexivity|]. cbn.
  rewrite !fn_lookup_alter. cbn.
  rewrite !(lookup_insert_ne _ (_ +:+ "/preview.mp3"))
    by (apply key_ne; auto with suffixes).
  rewrite !lookup_insert_eq.
  rewrite !(lookup_insert_ne _ (_ +:+ "/stream.mp3"))
    by (apply key_ne; auto with suffixes).
  rewrite !lookup_insert_eq.
  repeat split; reflexivity.
Qed.

Lemma wav_original_stored_as_audio_wav :
  let f := mkFileStorage "a.WAV" [Byte.x01; Byte.x02; Byte.x03] in
  let app := with_mode "s3" BaseConfig in
  let w := world_of (new_Track 7 "a" "") ∅ ∅ no_faults in
  ∃ w', process_track_upload 0 f app w = (Ok tt, w') ∧
    w_bucket w' !! "tracks/7/00000000000000000000000000000000/original.wav" =
      Some (mkS3Object [Byte.x01; Byte.x02; Byte.x03] "audio/wav") ∧
    mime_type (w_heap w' 0) = Some "audio/mpeg".
Proof.
  intros f app w.
  destruct (ingestion_s3_objects (H := demo) 0 f app w "WAV" [1; 2; 3]%Z
              [Byte.x01; Byte.x02; Byte.x03] [Byte.x01; Byte.x02; Byte.x03])
    as (w' & Hrun & _ & _ & _ & Hobj & _ & _ & Hmime);
    try (vm_compute; reflexivity).
  exists w'. split; [exact Hrun|]. split; [exact Hobj | exact Hmime].
Defined.

(** X6: Any variant name other than ["mp3"] and ["preview"] is resolved as
    the original. *)
Theorem unknown_variant_is_original track variant app w :
  variant ≠ "mp3" → variant ≠ "preview" →
  get_file_stream_response track variant app w =
    get_file_stream_response track "original" app w.
Proof.
  intros H1%String.eqb_neq H2%String.eqb_neq.
  unfold get_file_stream_response. by rewrite H1, H2.
Qed.

(** A track in local mode whose original is on disk and whose stream
    file is not: the variant ["stream"] goes the way of the original, to
    the [send_file] call; the variant ["mp3"] stops at the missing
    file. *)
Lemma variant_stream_is_original :
  let t := set_file_path (Some "uploads/7/a_orig.wav")
             (set_mp3_path (Some "uploads/7/a_stream.mp3") (new_Track 7 "a" "")) in
  let w := world_of t {[ "uploads/7/a_orig.wav" := [Byte.x52] ]} ∅ no_faults in
  get_file_stream_response 0 "stream" BaseConfig w =
    (Raise (NameError "send_file"), w) ∧
  get_file_stream_response 0 "mp3" BaseConfig w = (Raise (NameError "abort"), w).
Proof.
  intros t w. split; [|vm_compute; reflexivity].
  rewrite (unknown_variant_is_original 0 "stream" BaseConfig w);
    [vm_compute; reflexivity | discriminate | discriminate].
Defined.

(** X7: A locator whose blob is gone, and no 404 for it. In s3 mode a key
    whose object does not exist ends in the [ClientError] of
    [get_object], which leaves the function. In local mode a path whose
    file does not exist is noticed by [os.path.exists]; the function goes
    to its [abort(404)] call, where it raises [NameError]. *)
Theorem retrieval_of_missing_blob track app w :
  String.eqb (STORAGE_MODE app) "postgres" = false →
  has_original app (w_heap w track) = true →
  blob_original app w (w_heap w track) = None →
  w_faults w (w_clock w) = false →
  fst (get_file_stream_response track "original" app w) =
    if String.eqb (STORAGE_MODE app) "s3" then Raise ClientError
    else Raise (NameError "abort").
Proof.
  unfold has_original, blob_original, blob_at, get_file_stream_response.
  unfold_ops. cbn. intros ->.
  destruct (String.eqb (STORAGE_MODE app) "s3"); intros Hhas Hblob Hnf;
    rewrite Hhas; cbn.
  - rewrite Hnf. cbn.
    destruct (s3_key (w_heap w track)) as [k|]; [cbn in *|done].
    by destruct (w_bucket w !! k).
  - destruct (file_path (w_heap w track)) as [p|]; [cbn in *|done].
    by rewrite Hblob.
Qed.

Lemma retrieval_of_missing_object_s3 :
  let t := set_s3_key (Some "tracks/7/a/original.wav") (new_Track 7 "a" "") in
  let w := world_of t ∅ ∅ no_faults in
  fst (get_file_stream_response 0 "original" (with_mode "s3" BaseConfig) w) =
    Raise ClientError.
Proof.
  intros t w.
  apply (retrieval_of_missing_blob 0 (with_mode "s3" BaseConfig) w);
    vm_compute; reflexivity.
Defined.

(** X8: Retrieval only reads: whatever it answers, files, bucket, track
    objects, rows and session are as before. *)
Theorem retrieval_changes_nothing track variant app w :
  let w' := snd (get_file_stream_response track variant app w) in
  w_files w' = w_files w ∧ w_bucket w' = w_bucket w ∧
  w_heap w' = w_heap w ∧ w_rows w' = w_rows w ∧
  w_session w' = w_session w.
Proof.
  unfold get_file_stream_response. unfold_ops. cbn.
  repeat step; done.
Qed.

(** X9: In the s3 and local modes the preview variant falls back to the
    stream and to nothing else: with a stream locator it is resolved as
    the stream variant, and without one no locator is resolved, whether
    or not the original is stored: the function goes to the
    [abort(404)] call that guards an empty locator, where it raises
    [NameError]. *)
Theorem preview_fallback_stops_at_stream track app w :
  String.eqb (STORAGE_MODE app) "postgres" = false →
  has_preview app (w_heap w track) = false →
  (has_stream app (w_heap w track) = true →
   get_file_stream_response track "preview" app w =
     get_file_stream_response track "mp3" app w) ∧
  (has_stream app (w_heap w track) = false →
   get_file_stream_response track "preview" app w =
     (Raise (NameError "abort"), w)).
Proof.
  intros Hpg Hp. split; [by apply preview_falls_back_to_stream|].
  revert Hp. unfold has_stream, has_preview, get_file_stream_response, Py.or_str.
  unfold_ops. cbn. rewrite Hpg.
  destruct (String.eqb (STORAGE_MODE app) "s3"); intros Hp Hs;
    rewrite Hp; cbn; rewrite !Hs; reflexivity.
Qed.

(** A track in local mode with only its original stored: a request for
    the original finds the file and reaches [send_file]; a request for
    the preview resolves no path. *)
Lemma preview_of_original_only :
  let t := set_file_path (Some "uploads/7/a_orig.wav") (new_Track 7 "a" "") in
  let w := world_of t {[ "uploads/7/a_orig.wav" := [Byte.x52] ]} ∅ no_faults in
  get_file_stream_response 0 "original" BaseConfig w =
    (Raise (NameError "send_file"), w) ∧
  get_file_stream_response 0 "preview" BaseConfig w =
    (Raise (NameError "abort"), w).
Proof.
  intros t w. split; [vm_compute; reflexivity|].
  apply (preview_fallback_stops_at_stream 0 BaseConfig w); reflexivity.
Defined.

(** X10: In postgres mode a request never ends in NotFound: when none of the
    three binary fields holds a byte, the function falls off its end and
    the view has no response to give. *)
Theorem postgres_without_blobs_gives_no_response track variant app w :
  String.eqb (STORAGE_MODE app) "postgres" = true →
  has_original app (w_heap w track) = false →
  has_stream app (w_heap w track) = false →
  has_preview app (w_heap w track) = false →
  get_file_stream_response track variant app w = (Ok None, w).
Proof.
  unfold has_original, has_stream, has_preview, get_file_stream_response.
  unfold_ops. cbn. intros ->. intros -> -> ->.
  by rewrite !andb_false_r.
Qed.

Lemma postgres_empty_blobs_give_no_response :
  let t := set_original_file (Some []) (new_Track 7 "a" "") in
  let app := with_mode "postgres" BaseConfig in
  let w := world_of t ∅ ∅ no_faults in
  get_file_stream_response 0 "mp3" app w = (Ok None, w).
Proof.
  intros t app w.
  apply (postgres_without_blobs_gives_no_response 0 "mp3" app w); reflexivity.
Defined.

(** ** More on [storage_delete] *)

Lemma for_each_preserves_in {A B} (proj : World → B) (l : list A)
    (body : A → M unit) :
  (∀ x, x ∈ l → ∀ w, proj (snd (body x w)) = proj w) →
  ∀ w, proj (snd (for_each l body w)) = proj w.
Proof.
  induction l as [|x l IH]; intros Hbody w; [done|].
  cbn [for_each].
  pose proof (Hbody x ltac:(left) w) as Hx.
  destruct (body x w) as [[[]|e] w1] eqn:Hstep; cbn in Hx.
  - erewrite bind_ok by done. rewrite IH, Hx; [done|].
    intros y Hy. apply Hbody. by right.
  - erewrite bind_raise by done. done.
Qed.

Lemma in_three_of_four (a b c : option string) q :
  Some q ∈ [a; b; c; None] → Some q ∈ [a; b; c].
Proof. rewrite !elem_of_cons, !elem_of_nil. intuition congruence. Qed.

(** X11: [storage_delete] touches no blob that is not behind one of the
    track's own locators, and no other track object: in every mode and
    whichever calls fail, a file that none of the three path fields names
    and a bucket object that none of the three key fields names are after
    the call what they were before it. *)
Theorem storage_delete_frame track app w :
  let t := w_heap w track in
  let w' := snd (storage_delete track app w) in
  (∀ q, Some q ∉ [file_path t; mp3_path t; preview_path t] →
        w_files w' !! q = w_files w !! q) ∧
  (∀ k, Some k ∉ [s3_key t; s3_mp3_key t; s3_preview_key t] →
        w_bucket w' !! k = w_bucket w !! k) ∧
  (∀ r, r ≠ track → w_heap w' r = w_heap w r).
Proof.
  intros t w'. subst t w'. split; [|split].
  - intros q Hq. unfold storage_delete, try_except.
    destruct (String.eqb (STORAGE_MODE app) "local");
      [|destruct (String.eqb (STORAGE_MODE app) "s3")].
    + rewrite (bind_ok (load track) _ w (w_heap w track) w eq_refl). cbv beta.
      match goal with |- context [for_each ?l ?b w] =>
        pose proof (for_each_preserves_in (λ w0, w_files w0 !! q) l b) as Hloop;
        cbv beta in Hloop; specialize (λ Hb, Hloop Hb w);
        destruct (for_each l b w) as [[[]|e] w1]
      end; cbn [fst snd] in *; apply Hloop; clear Hloop;
      (intros p Hp w0; destruct p as [[|c p]|]; cbn; try done;
       unfold_ops; cbn; repeat step; try done;
       apply lookup_delete_ne; intros <-; apply Hq;
       by apply in_three_of_four).
    + rewrite (bind_ok (load track) _ w (w_heap w track) w eq_refl).
      cbv beta zeta.
      match goal with |- context [for_each ?l ?b w] =>
        pose proof (for_each_preserves w_files l b
                      (λ k w0, s3_delete_object_files (default "" k) w0) w) as Hf;
        destruct (for_each l b w) as [[[]|e] w1]
      end; cbn in *; by rewrite Hf.
    + unfold_ops. cbn. by destruct (w_faults w (w_clock w)).
  - intros q Hq. unfold storage_delete, try_except.
    destruct (String.eqb (STORAGE_MODE app) "local");
      [|destruct (String.eqb (STORAGE_MODE app) "s3")].
    + rewrite (bind_ok (load track) _ w (w_heap w track) w eq_refl). cbv beta.
      match goal with |- context [for_each ?l ?b w] =>
        pose proof (for_each_preserves_in (λ w0, w_bucket w0 !! q) l b) as Hloop;
        cbv beta in Hloop; specialize (λ Hb, Hloop Hb w);
        destruct (for_each l b w) as [[[]|e] w1]
      end; cbn [fst snd] in *; apply Hloop; clear Hloop;
      (intros p Hp w0; destruct p as [[|c p]|]; cbn; try done;
       unfold_ops; cbn; repeat step; done).
    + rewrite (bind_ok (load track) _ w (w_heap w track) w eq_refl).
      cbv beta zeta.
      match goal with |- context [for_each ?l ?b w] =>
        pose proof (for_each_preserves_in (λ w0, w_bucket w0 !! q) l b) as Hloop;
        cbv beta in Hloop; specialize (λ Hb, Hloop Hb w);
        destruct (for_each l b w) as [[[]|e] w1]
      end; cbn [fst snd] in *; apply Hloop; clear Hloop;
      (intros p [Hp Hin]%list_elem_of_filter w0;
       destruct p as [p|]; [|done]; cbn;
       unfold_ops; cbn; destruct (w_faults w0 (w_clock w0)); cbn; [done|];
       apply lookup_delete_ne; intros <-; apply Hq; exact Hin).
    + unfold_ops. cbn. by destruct (w_faults w (w_clock w)).
  - intros r Hr. rewrite storage_delete_heap.
    destruct (_ || _); [done|]. unfold alter, fn_alter.
    by rewrite decide_False.
Qed.

(** X12: The cleanup is not per file: in local mode, when removing the first
    file fails, the loop is left at once, the failure is logged, and the
    files behind the other two locators are not even tried; every file
    stays. *)
Theorem storage_delete_stops_at_first_failure track app w p :
  STORAGE_MODE app = "local" →
  file_path (w_heap w track) = Some p →
  p ≠ "" →
  is_Some (w_files w !! p) →
  w_faults w (w_clock w) = true →
  storage_delete track app w =
    (Ok tt,
     with_log (λ l, (l ++ ["Error cleaning storage: OSError"])%list)
       (with_clock (S (w_clock w)) w)).
Proof.
  intros Hmode Hp Hne [b Hb] Hfault. unfold storage_delete, try_except.
  rewrite Hmode. change (String.eqb "local" "local") with true. cbv iota.
  rewrite (bind_ok (load track) _ w (w_heap w track) w eq_refl). cbv beta.
  rewrite Hp. cbn [for_each].
  rewrite (bind_raise _ _ w OSError (with_clock (S (w_clock w)) w));
    [reflexivity|].
  destruct p as [|c p]; [done|]. cbn [Py.truthy_str default].
  unfold os_path_exists, os_remove, io. unfold mbind, M_bind.
  cbv beta iota zeta. unfold id. rewrite Hb. change (bool_decide (is_Some (Some b))) with true.
  cbv beta iota zeta. rewrite Hfault. reflexivity.
Qed.

Lemma storage_delete_stops_at_first_failure_holds :
  let t := set_mp3_path (Some "uploads/7/a_stream.mp3")
             (set_file_path (Some "uploads/7/a_orig.wav") (new_Track 7 "a" "")) in
  let files : gmap string bytes :=
    {[ "uploads/7/a_orig.wav" := [Byte.x52];
       "uploads/7/a_stream.mp3" := [Byte.x49] ]} in
  let w := world_of t files ∅ (fault_at 0) in
  w_files (snd (storage_delete 0 BaseConfig w)) = files.
Proof.
  intros t files w.
  rewrite (storage_delete_stops_at_first_failure 0 BaseConfig w
             "uploads/7/a_orig.wav");
    [reflexivity | reflexivity | reflexivity | discriminate
    | vm_compute; eauto | reflexivity].
Defined.

(** ** The cleanup after a failed final flush *)

(** When the final [db.session.flush()] of ingestion is what raises, the
    three blobs are stored and the three locators are truthy. *)
Lemma process_track_upload_flush_fails `{External} track f app w :
  fst (process_track_upload track f app w) = Raise SQLAlchemyError →
  String.eqb (STORAGE_MODE app) "postgres" = false →
  let t' := w_heap (snd (process_track_upload track f app w)) track in
  has_original app t' = true ∧ has_stream app t' = true ∧
  has_preview app t' = true.
Proof.
  intros Hr Hpg. revert Hr. cbv zeta.
  unfold has_original, has_stream, has_preview. rewrite Hpg.
  unfold process_track_upload. unfold_ops. cbn. rewrite Hpg.
  destruct (String.eqb (STORAGE_MODE app) "s3");
    repeat step; index_cases; intros Heq; try discriminate Heq;
    rewrite ?fn_lookup_alter; cbn; rewrite ?key_nonempty, ?path_nonempty; done.
Qed.

(** The loop of the ['local'] branch when no call fails from now on. *)
Lemma remove_loop_from (l : list (option string)) w :
  (∀ n, (w_clock w ≤ n)%nat → w_faults w n = false) →
  ∃ w', for_each l (λ p,
    if Py.truthy_str p then
      os_path_exists (default "" p) ≫= λ e : bool,
      if e then os_remove (default "" p) else mret tt
    else mret tt) w = (Ok tt, w') ∧
    (∀ p, p ∈ l → Py.truthy_str p = true → w_files w' !! default "" p = None) ∧
    (∀ q, w_files w !! q = None → w_files w' !! q = None) ∧
    w_heap w' = w_heap w.
Proof.
  revert w. induction l as [|p l IH]; intros w Hnf.
  { exists w. repeat split; try done. intros p Hp. inversion Hp. }
  assert (∃ w1, (if Py.truthy_str p then
      os_path_exists (default "" p) ≫= λ e : bool,
      if e then os_remove (default "" p) else mret tt
    else mret tt) w = (Ok tt, w1) ∧
    (∀ n, (w_clock w1 ≤ n)%nat → w_faults w1 n = false) ∧
    (Py.truthy_str p = true → w_files w1 !! default "" p = None) ∧
    (∀ q, w_files w !! q = None → w_files w1 !! q = None) ∧
    w_heap w1 = w_heap w)
    as (w1 & Hstep & Hnf1 & Hp1 & Hq1 & Hh1).
  { destruct (Py.truthy_str p); [|by exists w].
    unfold_ops. cbn.
    destruct (w_files w !! default "" p) eqn:Hf; cbn.
    - rewrite Hnf by lia. cbn. rewrite Hf. cbn. eexists. split; [done|]. cbn.
      repeat split; try done.
      + intros n Hn. apply Hnf. lia.
      + intros _. apply lookup_delete_eq.
      + intros q Hq. rewrite lookup_delete. by case_decide.
    - by exists w. }
  destruct (IH w1 Hnf1) as (w' & Hrest & Hl & Hq & Hh).
  exists w'. split; [cbn [for_each]; by erewrite bind_ok|].
  repeat split; try congruence.
  - intros q [->|Hin]%elem_of_cons Ht; [|by apply Hl].
    apply Hq. by apply Hp1.
  - intros q Hq0. by apply Hq, Hq1.
Qed.

Lemma s3_loop_from (l : list (option string)) w :
  (∀ n, (w_clock w ≤ n)%nat → w_faults w n = false) →
  ∃ w', for_each l (λ k, s3_delete_object (default "" k)) w = (Ok tt, w') ∧
    (∀ k, k ∈ l → w_bucket w' !! default "" k = None) ∧
    (∀ q, w_bucket w !! q = None → w_bucket w' !! q = None) ∧
    w_heap w' = w_heap w.
Proof.
  revert w. induction l as [|k l IH]; intros w Hnf.
  { exists w. repeat split; try done. intros p Hp. inversion Hp. }
  assert (∃ w1, s3_delete_object (default "" k) w = (Ok tt, w1) ∧
    (∀ n, (w_clock w1 ≤ n)%nat → w_faults w1 n = false) ∧
    w_bucket w1 = delete (default "" k) (w_bucket w) ∧
    w_heap w1 = w_heap w)
    as (w1 & Hstep & Hnf1 & Hb1 & Hh1).
  { unfold_ops. rewrite Hnf by lia. cbn. eexists. split; [done|].
    cbn. repeat split; try done. intros n Hn. apply Hnf. lia. }
  destruct (IH w1 Hnf1) as (w' & Hrest & Hl & Hq & Hh).
  exists w'. split; [cbn [for_each]; by erewrite bind_ok|].
  repeat split; try congruence.
  - intros q [->|Hin]%elem_of_cons; [|by apply Hl].
    apply Hq. rewrite Hb1. apply lookup_delete_eq.
  - intros q Hq0. apply Hq. rewrite Hb1, lookup_delete. by case_decide.
Qed.

(** X13: The case in which the cleanup does its work: under one of the three
    modes, when ingestion has stored the three blobs and its final flush
    raises, and no call fails afterwards, [storage_delete] leaves nothing
    behind the three locators of the track. *)
Theorem cleanup_after_failed_flush `{External} track f app w :
  let w1 := snd (process_track_upload track f app w) in
  let w2 := snd (storage_delete track app w1) in
  STORAGE_MODE app = "local" ∨ STORAGE_MODE app = "s3" ∨
    STORAGE_MODE app = "postgres" →
  fst (process_track_upload track f app w) = Raise SQLAlchemyError →
  (∀ n, (w_clock w1 ≤ n)%nat → w_faults w1 n = false) →
  blob_original app w2 (w_heap w2 track) = None ∧
  blob_stream app w2 (w_heap w2 track) = None ∧
  blob_preview app w2 (w_heap w2 track) = None.
Proof.
  intros w1 w2 Hmode Hr Hnf. subst w2.
  unfold blob_original, blob_stream, blob_preview, blob_at.
  rewrite !storage_delete_heap.
  destruct Hmode as [Hm|[Hm|Hm]].
  - destruct (process_track_upload_flush_fails track f app w Hr)
      as (Ho & Hs & Hp); [by rewrite Hm|]. fold w1 in Ho, Hs, Hp.
    unfold has_original, has_stream, has_preview in Ho, Hs, Hp.
    unfold storage_delete, try_except. rewrite Hm in *. cbn in Ho, Hs, Hp.
    change (String.eqb "local" "postgres") with false.
    change (String.eqb "local" "s3") with false.
    change (String.eqb "local" "local") with true. cbv iota. cbn [orb].
    rewrite (bind_ok (load track) _ w1 (w_heap w1 track) w1 eq_refl). cbv beta.
    match goal with |- context [for_each ?l ?b w1] =>
      destruct (remove_loop_from l w1 Hnf) as (w' & Hrun & Hgone & _) end.
    rewrite Hrun. cbn [snd].
    destruct (file_path (w_heap w1 track)) as [p1|] eqn:H1; [|done].
    destruct (mp3_path (w_heap w1 track)) as [p2|] eqn:H2; [|done].
    destruct (preview_path (w_heap w1 track)) as [p3|] eqn:H3; [|done].
    cbn. repeat split.
    + apply (Hgone (Some p1)); [left|done].
    + apply (Hgone (Some p2)); [right; left|done].
    + apply (Hgone (Some p3)); [right; right; left|done].
  - destruct (process_track_upload_flush_fails track f app w Hr)
      as (Ho & Hs & Hp); [by rewrite Hm|]. fold w1 in Ho, Hs, Hp.
    unfold has_original, has_stream, has_preview in Ho, Hs, Hp.
    unfold storage_delete, try_except. rewrite Hm in *. cbn in Ho, Hs, Hp.
    change (String.eqb "s3" "postgres") with false.
    change (String.eqb "s3" "s3") with true.
    change (String.eqb "s3" "local") with false. cbv iota. cbn [orb].
    rewrite (bind_ok (load track) _ w1 (w_heap w1 track) w1 eq_refl).
    cbv beta zeta.
    match goal with |- context [for_each ?l ?b w1] =>
      destruct (s3_loop_from l w1 Hnf) as (w' & Hrun & Hgone & _) end.
    rewrite Hrun. cbn [snd].
    destruct (s3_key (w_heap w1 track)) as [k1|] eqn:H1; [|done].
    destruct (s3_mp3_key (w_heap w1 track)) as [k2|] eqn:H2; [|done].
    destruct (s3_preview_key (w_heap w1 track)) as [k3|] eqn:H3; [|done].
    assert (w_bucket w' !! k1 = None ∧ w_bucket w' !! k2 = None ∧
            w_bucket w' !! k3 = None) as (G1 & G2 & G3).
    { repeat split;
        [apply (Hgone (Some k1)) | apply (Hgone (Some k2)) | apply (Hgone (Some k3))];
        apply list_elem_of_filter; (split; [done|]);
        rewrite !elem_of_cons; auto. }
    cbn [mbind option_bind]. by rewrite G1, G2, G3.
  - rewrite Hm. cbn. rewrite !fn_lookup_alter. done.
Qed.

(** Local mode, the three files written, and the flush that ends
    ingestion failing (its eighth fallible call). *)
Lemma cleanup_after_failed_flush_local :
  let f := mkFileStorage "a.wav" [Byte.x01; Byte.x02; Byte.x03] in
  let w1 := snd (process_track_upload 0 f BaseConfig (world0 (fault_at 7))) in
  let w2 := snd (storage_delete 0 BaseConfig w1) in
  blob_original BaseConfig w1 (w_heap w1 0) = Some [Byte.x01; Byte.x02; Byte.x03] ∧
  blob_original BaseConfig w2 (w_heap w2 0) = None ∧
  blob_stream BaseConfig w2 (w_heap w2 0) = None ∧
  blob_preview BaseConfig w2 (w_heap w2 0) = None.
Proof.
  intros f w1 w2. split; [vm_compute; reflexivity|].
  apply (cleanup_after_failed_flush (H := demo) 0 f BaseConfig (world0 (fault_at 7))).
  - left. reflexivity.
  - vm_compute. reflexivity.
  - intros n Hn. change (w_clock _) with 8 in Hn. change (w_faults _ n) with (Nat.eqb n 7).
    apply Nat.eqb_neq. lia.
Defined.

(** ** The streaming views *)

(** A track that is not attached to the session is loaded from its
    row. *)
Lemma get_or_404_loads track w t :
  track ∉ w_session w →
  w_rows w !! track = Some t →
  Track_query_get_or_404 track w =
    (Ok track,
     with_session (λ s, (s ++ [track])%list)
       (with_heap (λ h, <[track := t]> h) w)).
Proof.
  intros Hs Hr. unfold Track_query_get_or_404.
  rewrite bool_decide_eq_false_2 by done. by rewrite Hr.
Qed.

(** In a request that starts with the row [t] of a track committed and
    the blobs behind its locators in storage, the two streaming views
    load the track, find the blob, and get as far as the [send_file]
    call of [get_file_stream_response]. *)
Lemma views_reach_send_file track app w t :
  track ∉ w_session w →
  w_rows w !! track = Some t →
  w_faults w (w_clock w) = false →
  (∀ b, has_stream app t = true → blob_stream app w t = Some b →
        fst (stream_view track app w) = Raise (NameError "send_file")) ∧
  (∀ b, has_preview app t = true → blob_preview app w t = Some b →
        fst (preview_view track app w) = Raise (NameError "send_file")).
Proof.
  intros Hs Hr Hnf.
  pose proof (get_or_404_loads track w t Hs Hr) as Hload.
  unfold stream_view, preview_view. rewrite !(bind_ok _ _ _ _ _ Hload).
  split; intros b Hhas Hblob;
    [apply (retrieve_stream _ _ _ b) | apply (retrieve_preview _ _ _ b)];
    try done;
    cbn [w_heap with_session with_heap]; rewrite fn_lookup_insert; try done;
    unfold blob_stream, blob_preview in *; by rewrite <- Hblob.
Qed.

(** ** More on the [upload] view *)

Lemma remove_if_exists_rows (p : option string) w :
  w_rows (snd ((if Py.truthy_str p then
                  os_path_exists (default "" p) ≫= λ e : bool,
                  if e then os_remove (default "" p) else mret tt
                else mret tt) w)) = w_rows w.
Proof.
  destruct (Py.truthy_str p); [|done]. unfold_ops. cbn.
  repeat step; done.
Qed.

(** [storage_delete] writes no row for an object that is not attached to
    the session. *)
Lemma storage_delete_row track app w r :
  r ∉ w_session w →
  w_rows (snd (storage_delete track app w)) !! r = w_rows w !! r.
Proof.
  intros Hr. unfold storage_delete, try_except.
  destruct (String.eqb (STORAGE_MODE app) "local");
    [|destruct (String.eqb (STORAGE_MODE app) "s3")].
  - unfold mbind at 1, M_bind, load. cbv beta iota zeta.
    match goal with |- context [for_each ?l ?b w] =>
      pose proof (for_each_preserves w_rows l b remove_if_exists_rows w) as Hrows;
      destruct (for_each l b w) as [[[]|e] w1] end;
      exact (f_equal (λ m : gmap nat Track, m !! r) Hrows).
  - unfold mbind at 1, M_bind, load. cbv beta iota zeta.
    match goal with |- context [for_each ?l ?b w] =>
      pose proof (for_each_preserves w_rows l b
                    (λ k w0, s3_delete_object_rows (default "" k) w0) w) as Hrows;
      destruct (for_each l b w) as [[[]|e] w1] end;
      exact (f_equal (λ m : gmap nat Track, m !! r) Hrows).
  - unfold_ops. cbn.
    destruct (w_faults w (w_clock w)); cbn; [done|].
    rewrite lookup_commit. by rewrite decide_False.
Qed.

(** The [except] block of [upload] leaves a track without a row without
    a row. *)
Lemma upload_except_row `{External} track app e w :
  w_rows w !! track = None →
  w_rows (snd (upload_except track app e w)) !! track = None.
Proof.
  intros Hrow. unfold upload_except.
  unfold mbind at 1, M_bind, db_rollback, modify.
  unfold mbind at 1, M_bind.
  match goal with |- context [storage_delete track app ?w0] =>
    pose proof (storage_delete_row track app w0 track) as Hdel;
    destruct (storage_delete track app w0) as [[[]|e0] w1]
  end; cbn [fst snd w_session w_rows with_session with_heap] in Hdel.
  - unfold_ops. cbn. rewrite Hdel; [done|].
    intros [[t Ht] _]%list_elem_of_filter. congruence.
  - cbn. rewrite Hdel; [done|].
    intros [[t Ht] _]%list_elem_of_filter. congruence.
Qed.

(** The row of the track that [upload] creates. *)
Lemma upload_row `{External} req app w :
  w_rows w !! w_next_ref w = None →
  let r := fst (upload req app w) in
  let w' := snd (upload req app w) in
  (∀ id, r = Ok (Redirect "track" id) →
     id = Some (w_next_ref w) ∧
     w_rows w' !! w_next_ref w = Some (w_heap w' (w_next_ref w))) ∧
  ((∀ id, r ≠ Ok (Redirect "track" id)) → w_rows w' !! w_next_ref w = None).
Proof.
  intros Hfresh r w'. subst r w'.
  destruct (upload req app w) as [r w'] eqn:Hup. cbn [fst snd].
  unfold upload in Hup.
  destruct (validate_on_submit req); [|unfold_ops; simplify_eq; done].
  unfold mbind at 1, M_bind in Hup. unfold lift at 1 in Hup.
  destruct (allowed_file _ _) as [[]|]; cbv beta iota in Hup; cbn [negb] in Hup;
    try (unfold_ops; cbn in Hup; simplify_eq; cbn; done).
  unfold mbind at 1, M_bind in Hup.
  match type of Hup with context [(if ?c then mret ?a else lift ?x) w] =>
    destruct (pure_choice c a x w) as [[ti|e] Hti]; rewrite Hti in Hup end;
    cbv beta iota in Hup; [|simplify_eq; done].
  clear Hti.
  unfold alloc, db_add, db_flush, io, modify, try_except in Hup.
  unfold mbind at 1, M_bind in Hup. unfold mbind at 1, M_bind in Hup.
  unfold mbind at 1, M_bind in Hup. cbn in Hup.
  destruct (w_faults w (w_clock w)); cbn in Hup.
  { simplify_eq. cbn. done. }
  unfold mbind at 1, M_bind in Hup.
  match type of Hup with context [process_track_upload ?t ?f ?a ?w1] =>
    pose proof (process_track_upload_frame t f a w1) as (Hrows & _ & Hsess);
    destruct (process_track_upload t f a w1) as [[[]|e] w2]
  end; cbn in Hrows, Hsess.
  - unfold db_commit, flash, io, modify in Hup.
    unfold mbind, M_bind, mret, M_ret in Hup.
    destruct (w_faults w2 (w_clock w2)); cbn in Hup.
    + pose proof (upload_except_row (w_next_ref w) app SQLAlchemyError
                    (with_clock (S (w_clock w2)) w2)) as Hrow.
      pose proof (upload_except_locators (w_next_ref w) app SQLAlchemyError
                    (with_clock (S (w_clock w2)) w2)) as Hr.
      rewrite Hup in Hrow, Hr. cbn in Hrow, Hr.
      rewrite Hrows in Hrow, Hr. destruct (Hr Hfresh) as [-> _].
      split; [done|]. intros _. by apply Hrow.
    + simplify_eq. cbn. split; [|intros Hno; by destruct (Hno (Some (w_next_ref w)))].
      intros id [= <-]. split; [done|].
      rewrite lookup_commit. rewrite decide_True; [done|].
      apply Hsess. case_bool_decide; [done|]. apply elem_of_app. right. by left.
  - pose proof (upload_except_row (w_next_ref w) app e w2) as Hrow.
    pose proof (upload_except_locators (w_next_ref w) app e w2) as Hr.
    rewrite Hup in Hrow, Hr. cbn in Hrow, Hr.
    rewrite Hrows in Hrow, Hr. destruct (Hr Hfresh) as [-> _].
    split; [done|]. intros _. by apply Hrow.
Qed.

(** A track that has no row and is not attached to the session is a
    404. *)
Lemma get_or_404_missing track w :
  track ∉ w_session w →
  w_rows w !! track = None →
  Track_query_get_or_404 track w = (Raise NotFound, w).
Proof.
  intros Hs Hr. unfold Track_query_get_or_404.
  rewrite bool_decide_eq_false_2 by done. by rewrite Hr.
Qed.

(** X14: The track that [upload] creates has a committed row exactly when the
    view redirects to the track: then the row holds the object as the
    request leaves it. In every other outcome (the form is rendered
    again, the upload is refused, the first flush raises) the track has
    no row, and the [stream] view of a later request answers 404 for
    it. *)
Theorem upload_row_iff_redirect `{External} req app w :
  w_rows w !! w_next_ref w = None →
  let r := fst (upload req app w) in
  let w' := snd (upload req app w) in
  (∀ id, r = Ok (Redirect "track" id) →
     id = Some (w_next_ref w) ∧
     w_rows w' !! w_next_ref w = Some (w_heap w' (w_next_ref w))) ∧
  ((∀ id, r ≠ Ok (Redirect "track" id)) →
     w_rows w' !! w_next_ref w = None ∧
     stream_view (w_next_ref w) app (next_request w') =
       (Raise NotFound, next_request w')).
Proof.
  intros Hfresh. destruct (upload_row req app w Hfresh) as [Hyes Hno].
  cbv zeta. split; [exact Hyes|]. intros Hr. specialize (Hno Hr).
  split; [exact Hno|]. unfold stream_view. apply bind_raise.
  apply get_or_404_missing; [|exact Hno]. cbn. by intros ?%elem_of_nil.
Qed.

(** An upload that goes through, and one whose decoding fails. *)
Lemma upload_row_iff_redirect_holds :
  let good := mkRequest true 7 "" ""
                (mkFileStorage "song.mp3" [Byte.x01; Byte.x02; Byte.x03]) in
  let bad := mkRequest true 7 "" "" (mkFileStorage "song.mp3" []) in
  let w := world0 no_faults in
  w_rows (snd (upload good BaseConfig w)) !! 0 =
    Some (w_heap (snd (upload good BaseConfig w)) 0) ∧
  w_rows (snd (upload bad BaseConfig w)) !! 0 = None.
Proof.
  intros good bad w. split.
  - apply (proj1 (upload_row_iff_redirect (H := demo) good BaseConfig w eq_refl)
             (Some 0)).
    vm_compute. reflexivity.
  - apply (proj2 (upload_row_iff_redirect (H := demo) bad BaseConfig w eq_refl)).
    intros id. vm_compute. discriminate.
Defined.

(** A name without a dot has no second part. *)
Lemma no_dot_no_extension s :
  Py.contains "." s = false → Py.index (Py.rsplit1 "." s) 1 = Raise IndexError.
Proof.
  intros Hs%rsplit_last_none. unfold Py.rsplit1. by rewrite Hs.
Qed.

Lemma process_track_upload_no_extension `{External} track f app w :
  Py.contains "." (secure_filename (fs_filename f)) = false →
  process_track_upload track f app w = (Raise IndexError, w).
Proof.
  intros Hdot%no_dot_no_extension. unfold process_track_upload.
  apply bind_raise. unfold lift. by rewrite Hdot.
Qed.

(** The [except] block of [upload] on a track that has neither a row nor
    a path or key: it flashes the exception and touches neither files
    nor bucket. *)
Lemma upload_except_run `{External} track app e w :
  w_rows w !! track = None →
  file_path (w_heap w track) = None →
  mp3_path (w_heap w track) = None →
  preview_path (w_heap w track) = None →
  s3_key (w_heap w track) = None →
  s3_mp3_key (w_heap w track) = None →
  s3_preview_key (w_heap w track) = None →
  let w' := snd (upload_except track app e w) in
  fst (upload_except track app e w) = Ok (Render "upload.html") ∧
  last (w_flashes w') = Some ("Upload failed: " +:+ exn_str e, "danger") ∧
  w_files w' = w_files w ∧ w_bucket w' = w_bucket w.
Proof.
  intros Hrow H1 H2 H3 H4 H5 H6. cbv zeta.
  destruct (upload_except track app e w) as [r w'] eqn:Hup. cbn [fst snd].
  unfold upload_except in Hup.
  unfold mbind at 1, M_bind, db_rollback, modify in Hup.
  unfold mbind at 1, M_bind in Hup.
  match type of Hup with context [storage_delete track app ?w0] =>
    assert (w_heap w0 track = w_heap w track) as Hheap
      by (cbn -[lookup]; rewrite Hrow; by case_bool_decide);
    destruct (storage_delete_without_locators track app w0) as [Hf Hb];
      [by rewrite Hheap ..|];
    destruct (storage_delete_total track app w0) as [w1 Hdel];
    rewrite Hdel in Hup, Hf, Hb
  end.
  cbn in Hf, Hb. unfold_ops. cbn in Hup. simplify_eq. cbn.
  by rewrite last_snoc.
Qed.

(** X15: [allowed_file] looks at the name as the client sent it, ingestion at
    the name [secure_filename] makes of it. When the first has an allowed
    extension and the second has no dot left, the view gets past the
    extension check and fails in ingestion with [IndexError]: the form is
    rendered again with the message of that exception, and no file and no
    object is stored. *)
Theorem upload_extension_lost `{External} req app w :
  validate_on_submit req = true →
  allowed_file (fs_filename (form_track req)) (ALLOWED_EXTENSIONS app) = Ok true →
  Py.contains "." (secure_filename (fs_filename (form_track req))) = false →
  w_faults w (w_clock w) = false →
  w_rows w !! w_next_ref w = None →
  let w' := snd (upload req app w) in
  fst (upload req app w) = Ok (Render "upload.html") ∧
  last (w_flashes w') = Some ("Upload failed: list index out of range", "danger") ∧
  w_files w' = w_files w ∧ w_bucket w' = w_bucket w.
Proof.
  intros Hval Hallowed Hdot Hnf Hfresh. cbv zeta.
  destruct (upload req app w) as [r w'] eqn:Hup. cbn [fst snd].
  unfold upload in Hup. rewrite Hval in Hup.
  unfold mbind at 1, M_bind in Hup. unfold lift at 1 in Hup.
  rewrite Hallowed in Hup. cbv beta iota in Hup. cbn [negb] in Hup.
  unfold mbind at 1, M_bind in Hup.
  match type of Hup with context [(if ?c then mret ?a else lift ?x) w] =>
    assert (∃ ti, (if c then mret a else lift x) w = (Ok ti, w)) as [ti Hti]
  end.
  { destruct (Py.truthy_str _); unfold_ops; [eauto|].
    unfold Py.rsplit1. destruct (Py.rsplit_last _ _) as [[]|]; cbn; eauto. }
  rewrite Hti in Hup. clear Hti. cbv beta iota in Hup.
  unfold alloc, db_add, db_flush, io, modify, try_except in Hup.
  unfold mbind at 1, M_bind in Hup. unfold mbind at 1, M_bind in Hup.
  unfold mbind at 1, M_bind in Hup. cbn in Hup. rewrite Hnf in Hup. cbn in Hup.
  unfold mbind at 1, M_bind in Hup.
  rewrite process_track_upload_no_extension in Hup by done.
  match type of Hup with upload_except ?t app ?e ?w0 = _ =>
    destruct (upload_except_run t app e w0) as (Hr & Hl & Hf & Hb);
      [cbn -[lookup]; rewrite ?fn_lookup_insert; done ..|]
  end.
  rewrite Hup in Hr, Hl, Hf, Hb. done.
Qed.

(** A name that is only an extension, under a [secure_filename] that
    strips leading dots: [".mp3"] is allowed, ["mp3"] has no extension. *)
Lemma hidden_file_upload_fails :
  let req := mkRequest true 7 "" "" (mkFileStorage ".mp3" [Byte.x01]) in
  let w := world0 no_faults in
  fst (@upload demo_strip req BaseConfig w) = Ok (Render "upload.html") ∧
  last (w_flashes (snd (@upload demo_strip req BaseConfig w))) =
    Some ("Upload failed: list index out of range", "danger") ∧
  w_files (snd (@upload demo_strip req BaseConfig w)) = ∅ ∧
  w_bucket (snd (@upload demo_strip req BaseConfig w)) = ∅.
Proof.
  intros req w.
  apply (upload_extension_lost (H := demo_strip) req BaseConfig w);
    vm_compute; reflexivity.
Defined.

(** X16: An upload that goes through, and the requests that follow it.
    The view redirects to the new track and flashes its success; the
    track's row is committed, and the transcoding and the clip are in
    storage behind its locators. In a later request the [stream] and
    [preview] views load the track from that row, find the blob, and
    fail at the [send_file] call of [get_file_stream_response] with
    [NameError]: the track cannot be played. (In postgres mode the two
    blobs are taken to be non-empty.) *)
Theorem uploaded_track_cannot_be_streamed `{External}
    req app w e (audio : AudioSegment) mp3 preview :
  validate_on_submit req = true →
  allowed_file (fs_filename (form_track req)) (ALLOWED_EXTENSIONS app) = Ok true →
  Py.index (Py.rsplit1 "." (secure_filename (fs_filename (form_track req)))) 1 = Ok e →
  from_file (drop (w_stream_pos w) (fs_stream (form_track req))) (Py.lower e) =
    Some audio →
  export audio "mp3" (TRANSCODE_BITRATE app) = Some mp3 →
  export (Py.slice_to audio (PREVIEW_DURATION app * 1000)) "mp3"
    (TRANSCODE_BITRATE app) = Some preview →
  (∀ n, w_faults w n = false) →
  (String.eqb (STORAGE_MODE app) "postgres" = true → mp3 ≠ [] ∧ preview ≠ []) →
  ∃ w', upload req app w = (Ok (Redirect "track" (Some (w_next_ref w))), w') ∧
    last (w_flashes w') =
      Some ("Upload successful — transcoding & previews created.", "success") ∧
    w_rows w' !! w_next_ref w = Some (w_heap w' (w_next_ref w)) ∧
    blob_stream app w' (w_heap w' (w_next_ref w)) = Some mp3 ∧
    blob_preview app w' (w_heap w' (w_next_ref w)) = Some preview ∧
    fst (stream_view (w_next_ref w) app (next_request w')) =
      Raise (NameError "send_file") ∧
    fst (preview_view (w_next_ref w) app (next_request w')) =
      Raise (NameError "send_file").
Proof.
  intros Hval Hallowed Hext Hdec Hmp3 Hprev Hnf Hne.
  destruct (upload req app w) as [r w'] eqn:Hup. exists w'.
  unfold upload in Hup. rewrite Hval in Hup.
  unfold mbind at 1, M_bind in Hup. unfold lift at 1 in Hup.
  rewrite Hallowed in Hup. cbv beta iota in Hup. cbn [negb] in Hup.
  unfold mbind at 1, M_bind in Hup.
  match type of Hup with context [(if ?c then mret ?a else lift ?x) w] =>
    assert (∃ ti, (if c then mret a else lift x) w = (Ok ti, w)) as [ti Hti]
  end.
  { destruct (Py.truthy_str _); unfold_ops; [eauto|].
    unfold Py.rsplit1. destruct (Py.rsplit_last _ _) as [[]|]; cbn; eauto. }
  rewrite Hti in Hup. clear Hti. cbv beta iota in Hup.
  unfold alloc, db_add, db_flush, io, modify, try_except in Hup.
  unfold mbind at 1, M_bind in Hup. unfold mbind at 1, M_bind in Hup.
  unfold mbind at 1, M_bind in Hup. cbn in Hup. rewrite Hnf in Hup. cbn in Hup.
  unfold mbind at 1, M_bind in Hup.
  match type of Hup with context [process_track_upload ?t ?f ?a ?w1] =>
    pose proof (process_track_upload_frame t f a w1) as (_ & _ & Hsess);
    destruct (process_track_upload_succeeds t f a w1 e audio mp3 preview)
      as (w2 & Hrun & _ & Hs & Hp & _ & Hhas & Hfaults); try done;
    rewrite Hrun in Hup, Hsess
  end.
  cbn in Hsess, Hfaults.
  unfold db_commit, flash, io, modify in Hup.
  unfold mbind, M_bind, mret, M_ret in Hup.
  rewrite Hfaults, Hnf in Hup. cbn in Hup. simplify_eq.
  split; [done|]. split; [cbn; by rewrite last_snoc|].
  assert (has_stream app (w_heap w2 (w_next_ref w)) = true ∧
          has_preview app (w_heap w2 (w_next_ref w)) = true) as [Hhs Hhp].
  { destruct (String.eqb (STORAGE_MODE app) "postgres") eqn:Hpg;
      [|by destruct (Hhas eq_refl) as (_ & ? & ?)].
    destruct Hne as (Hns & Hnp); [done|].
    unfold has_stream, has_preview, blob_stream, blob_preview, blob_at in *.
    rewrite Hpg in *. rewrite Hs, Hp. by destruct mp3, preview. }
  match goal with |- context [next_request ?w0] =>
    assert (w_rows w0 !! w_next_ref w = Some (w_heap w2 (w_next_ref w))) as Hrow;
    [|destruct (views_reach_send_file (w_next_ref w) app (next_request w0)
                 (w_heap w2 (w_next_ref w))) as [Hstream Hpreview]]
  end.
  - cbn [w_rows with_session with_flashes with_rows with_clock].
    rewrite lookup_commit. rewrite decide_True; [done|].
    cbn. apply Hsess. case_bool_decide; [done|]. apply elem_of_app. right. by left.
  - cbn. by intros ?%elem_of_nil.
  - exact Hrow.
  - cbn. by rewrite Hfaults, Hnf.
  - split; [exact Hrow|]. split; [exact Hs|]. split; [exact Hp|].
    split; [apply (Hstream mp3) | apply (Hpreview preview)]; done.
Qed.

Lemma uploaded_track_cannot_be_streamed_local :
  let req := mkRequest true 7 "" ""
               (mkFileStorage "song.wav" [Byte.x01; Byte.x02; Byte.x03]) in
  ∃ w', upload req BaseConfig (world0 no_faults) =
          (Ok (Redirect "track" (Some 0)), w') ∧
    blob_stream BaseConfig w' (w_heap w' 0) = Some [Byte.x01; Byte.x02; Byte.x03] ∧
    fst (stream_view 0 BaseConfig (next_request w')) =
      Raise (NameError "send_file") ∧
    fst (preview_view 0 BaseConfig (next_request w')) =
      Raise (NameError "send_file").
Proof.
  intros req.
  destruct (uploaded_track_cannot_be_streamed (H := demo) req BaseConfig
              (world0 no_faults) "wav" [1; 2; 3]%Z
              [Byte.x01; Byte.x02; Byte.x03] [Byte.x01; Byte.x02; Byte.x03])
    as (w' & Hrun & _ & _ & Hs & _ & Hstream & Hpreview);
    try (vm_compute; reflexivity); [vm_compute; discriminate|].
  exists w'. repeat split; assumption.
Defined.

(** Neither ingestion nor the cleanup writes a title. *)
Lemma process_track_upload_title `{External} track f app w r :
  title (w_heap (snd (process_track_upload track f app w)) r) = title (w_heap w r).
Proof.
  unfold process_track_upload. unfold_ops. cbn.
  repeat step; try done;
    unfold alter, fn_alter; repeat case_decide; subst; done.
Qed.

Lemma upload_except_title `{External} track app e w :
  w_rows w !! track = None →
  title (w_heap (snd (upload_except track app e w)) track) = title (w_heap w track).
Proof.
  intros Hrow.
  destruct (upload_except track app e w) as [r w'] eqn:Hup. cbn [fst snd].
  unfold upload_except in Hup.
  unfold mbind at 1, M_bind, db_rollback, modify in Hup.
  unfold mbind at 1, M_bind in Hup.
  match type of Hup with context [storage_delete track app ?w0] =>
    assert (w_heap w0 track = w_heap w track) as Hheap
      by (cbn -[lookup]; rewrite Hrow; by case_bool_decide);
    pose proof (storage_delete_heap track app w0 track) as Hdel;
    destruct (storage_delete_total track app w0) as [w1 Hrun];
    rewrite Hrun in Hup, Hdel
  end.
  cbn [snd] in Hdel. unfold_ops. cbn in Hup. simplify_eq. cbn.
  rewrite Hdel. destruct (_ || _); [exact (f_equal title Hheap)|].
  rewrite fn_lookup_alter. exact (f_equal title Hheap).
Qed.

(** X27: The [db.session.flush()] that [upload] makes before its [try]
    is not protected: when the form validated, the file name passed the
    extension check and that flush fails, the view raises its
    [SQLAlchemyError]; the failure is neither flashed nor logged, the
    upload stream has not been read, and no file, bucket object or row
    has been written. *)
Theorem upload_first_flush_propagates `{External} req app w :
  validate_on_submit req = true →
  allowed_file (fs_filename (form_track req)) (ALLOWED_EXTENSIONS app) = Ok true →
  w_faults w (w_clock w) = true →
  let w' := snd (upload req app w) in
  fst (upload req app w) = Raise SQLAlchemyError ∧
  w_clock w' = S (w_clock w) ∧
  w_flashes w' = w_flashes w ∧ w_log w' = w_log w ∧
  w_stream_pos w' = w_stream_pos w ∧
  w_files w' = w_files w ∧ w_bucket w' = w_bucket w ∧
  w_rows w' = w_rows w.
Proof.
  intros Hval Hallowed Hfault. cbv zeta.
  destruct (upload req app w) as [r w'] eqn:Hup. cbn [fst snd].
  unfold upload in Hup. rewrite Hval in Hup.
  unfold mbind at 1, M_bind in Hup. unfold lift at 1 in Hup.
  rewrite Hallowed in Hup. cbv beta iota in Hup. cbn [negb] in Hup.
  unfold mbind at 1, M_bind in Hup.
  match type of Hup with context [(if ?c then mret ?a else lift ?x) w] =>
    assert (∃ ti, (if c then mret a else lift x) w = (Ok ti, w)) as [ti Hti]
  end.
  { destruct (Py.truthy_str _); unfold_ops; [eauto|].
    unfold Py.rsplit1. destruct (Py.rsplit_last _ _) as [[]|]; cbn; eauto. }
  rewrite Hti in Hup. clear Hti. cbv beta iota in Hup.
  unfold alloc, db_add, db_flush, io, modify, try_except in Hup.
  unfold mbind at 1, M_bind in Hup. unfold mbind at 1, M_bind in Hup.
  unfold mbind at 1, M_bind in Hup. cbn in Hup. rewrite Hfault in Hup.
  cbn in Hup. by simplify_eq.
Qed.

Lemma upload_first_flush_fails :
  let req := mkRequest true 7 "" ""
               (mkFileStorage "song.mp3" [Byte.x01; Byte.x02; Byte.x03]) in
  let w := world0 (fault_at 0) in
  fst (upload req BaseConfig w) = Raise SQLAlchemyError ∧
  w_files (snd (upload req BaseConfig w)) = ∅ ∧
  w_flashes (snd (upload req BaseConfig w)) = [].
Proof.
  intros req w.
  destruct (upload_first_flush_propagates (H := demo) req BaseConfig w)
    as (Hr & _ & Hfl & _ & _ & Hf & _); try (vm_compute; reflexivity).
  split; [exact Hr|]. split; [exact Hf | exact Hfl].
Defined.

(** X28: The title of the track that [upload] creates, for a new
    primary key and a file name that passes the extension check: the
    title of the form when there is one, and otherwise the secured file
    name without its last extension. It is the title whatever becomes of
    the upload afterwards. *)
Theorem upload_title `{External} req app w stem ext :
  validate_on_submit req = true →
  allowed_file (fs_filename (form_track req)) (ALLOWED_EXTENSIONS app) = Ok true →
  w_rows w !! w_next_ref w = None →
  secure_filename (fs_filename (form_track req)) = stem +:+ String "." ext →
  Py.contains "." ext = false →
  title (w_heap (snd (upload req app w)) (w_next_ref w)) =
    if Py.truthy_str (Some (form_title req)) then form_title req else stem.
Proof.
  intros Hval Hallowed Hfresh Hname Hext.
  destruct (upload req app w) as [r w'] eqn:Hup. cbn [fst snd].
  unfold upload in Hup. rewrite Hval in Hup.
  unfold mbind at 1, M_bind in Hup. unfold lift at 1 in Hup.
  rewrite Hallowed in Hup. cbv beta iota in Hup. cbn [negb] in Hup.
  unfold mbind at 1, M_bind in Hup.
  match type of Hup with context [(if ?c then mret ?a else lift ?x) w] =>
    assert ((if c then mret a else lift x) w =
            (Ok (if c then a else stem), w)) as Hti
  end.
  { destruct (Py.truthy_str _); unfold_ops; [done|].
    unfold Py.rsplit1.
    by rewrite (proj2 (rsplit_last_some "." _ stem ext) (conj Hname Hext)). }
  rewrite Hti in Hup. clear Hti. cbv beta iota in Hup.
  unfold alloc, db_add, db_flush, io, modify, try_except in Hup.
  unfold mbind at 1, M_bind in Hup. unfold mbind at 1, M_bind in Hup.
  unfold mbind at 1, M_bind in Hup. cbn in Hup.
  destruct (w_faults w (w_clock w)); cbn in Hup.
  { simplify_eq. cbn. by rewrite fn_lookup_insert. }
  unfold mbind at 1, M_bind in Hup.
  match type of Hup with context [process_track_upload ?t ?f ?a ?w1] =>
    pose proof (process_track_upload_title t f a w1 t) as Htitle;
    pose proof (process_track_upload_frame t f a w1) as (Hrows & _);
    destruct (process_track_upload t f a w1) as [[[]|e0] w2]
  end; cbn in Htitle, Hrows; rewrite fn_lookup_insert in Htitle; cbn in Htitle.
  - unfold db_commit, flash, io, modify in Hup.
    unfold mbind, M_bind, mret, M_ret in Hup.
    destruct (w_faults w2 (w_clock w2)); cbn in Hup; [|by simplify_eq].
    match type of Hup with upload_except ?t ?a ?e0 ?w0 = _ =>
      pose proof (upload_except_title t a e0 w0) as Hex end.
    rewrite Hup in Hex. cbn in Hex. rewrite Hex; [done|]. by rewrite Hrows.
  - pose proof (upload_except_title (w_next_ref w) app e0 w2) as Hex.
    rewrite Hup in Hex. cbn in Hex. rewrite Hex; [done|]. by rewrite Hrows.
Qed.

Lemma upload_title_from_file_name :
  let req := mkRequest true 7 "" ""
               (mkFileStorage "my.song.mp3" [Byte.x01; Byte.x02; Byte.x03]) in
  let w := world0 no_faults in
  fst (upload req BaseConfig w) = Ok (Redirect "track" (Some 0)) ∧
  title (w_heap (snd (upload req BaseConfig w)) 0) = "my.song".
Proof.
  intros req w. split; [vm_compute; reflexivity|].
  apply (upload_title (H := demo) req BaseConfig w "my.song" "mp3");
    vm_compute; reflexivity.
Defined.

(** ** Avatars *)



(** X18: [handle_avatar_upload] removes nothing: whatever its outcome, every
    file and every object of the bucket that existed before the call
    exists after it, so the avatar a user had before stays in storage,
    and no track object changes. *)
Theorem avatar_never_removes `{Imaging} user f app w :
  let w' := snd (handle_avatar_upload user f app w) in
  (∀ p, is_Some (w_files w !! p) → is_Some (w_files w' !! p)) ∧
  (∀ k, is_Some (w_bucket w !! k) → is_Some (w_bucket w' !! k)) ∧
  (∀ r, w_heap w' r = w_heap w r).
Proof.
  unfold handle_avatar_upload, avatar_store. unfold_ops. cbn.
  repeat step; repeat split; try done;
    intros p Hp; rewrite ?lookup_insert_is_Some'; auto 10.
Qed.

(** X19: Nothing undoes the store when the commit that ends
    [handle_avatar_upload] fails: the call raises [SQLAlchemyError] only
    then, and in the s3 and local modes the object or file written just
    before is still there, under the name the user object now carries. *)
Theorem avatar_orphan_on_commit_failure `{Imaging} user f app w :
  let r := fst (fst (handle_avatar_upload user f app w)) in
  let u' := snd (fst (handle_avatar_upload user f app w)) in
  let w' := snd (handle_avatar_upload user f app w) in
  r = Raise SQLAlchemyError →
  String.eqb (STORAGE_MODE app) "postgres" = false →
  ∃ name out,
    png_thumbnail (drop (w_stream_pos w) (fs_stream f)) AVATAR_MAX_SIZE = Some out ∧
    avatar_filename u' = Some name ∧
    if String.eqb (STORAGE_MODE app) "s3"
    then w_bucket w' !! name = Some (mkS3Object out "image/png")
    else w_files w' !! name = Some out.
Proof.
  cbv zeta. intros Hr Hpg. revert Hr.
  unfold handle_avatar_upload, avatar_store. unfold_ops. cbn. rewrite Hpg.
  destruct (png_thumbnail _ _) as [out|]; cbn; [|done].
  destruct (String.eqb (STORAGE_MODE app) "s3"); cbn;
    repeat step; intros Hr; try discriminate Hr;
    eexists _, _; (split; [reflexivity|]); (split; [reflexivity|]);
    apply lookup_insert_eq.
Qed.

Lemma avatar_orphan_on_commit_failure_s3 :
  let user := mkUser 7 "ann" "ann@example.org" "" "" None None in
  let f := mkFileStorage "me.jpg" [Byte.x01; Byte.x02] in
  let app := with_mode "s3" BaseConfig in
  let run := @handle_avatar_upload demo_imaging user f app (world0 (fault_at 1)) in
  fst (fst run) = Raise SQLAlchemyError ∧
  ∃ name out,
    avatar_filename (snd (fst run)) = Some name ∧
    w_bucket (snd run) !! name = Some (mkS3Object out "image/png").
Proof.
  intros user f app run.
  assert (fst (fst run) = Raise SQLAlchemyError) as Hr by (vm_compute; reflexivity).
  split; [exact Hr|].
  destruct (avatar_orphan_on_commit_failure (H := demo_imaging) user f app
              (world0 (fault_at 1)) Hr eq_refl) as (name & out & _ & Hn & Hb).
  exists name, out. split; [exact Hn | exact Hb].
Defined.

(** ** The social views *)

Lemma is_follow_spec a b f : is_follow a b f = true ↔ f = mkFollow a b.
Proof.
  unfold is_follow. destruct f as [x y]. cbn.
  rewrite andb_true_iff, !Z.eqb_eq. split; [by intros [-> ->] | by intros [= -> ->]].
Qed.

Lemma following_spec a b s :
  following a b s = true ↔ mkFollow a b ∈ site_follows s.
Proof.
  unfold following. rewrite existsb_exists. split.
  - intros (f & Hin & ->%is_follow_spec). by apply list_elem_of_In.
  - intros Hin. exists (mkFollow a b). split; [by apply list_elem_of_In|].
    by apply is_follow_spec.
Qed.

Lemma delete_first_elem_of {A} (p : A → bool) l x :
  x ∈ delete_first p l → x ∈ l.
Proof.
  induction l as [|y l IH]; cbn; [done|].
  destruct (p y); [by right|]. intros [->|Hin]%elem_of_cons; [left|right; auto].
Qed.

Lemma delete_first_NoDup {A} (p : A → bool) l :
  NoDup l → NoDup (delete_first p l).
Proof.
  induction 1 as [|y l Hy Hl IH]; cbn; [constructor|].
  destruct (p y); [done|]. constructor; [|done].
  intros Hin%delete_first_elem_of. done.
Qed.

Lemma delete_first_keeps {A} (p : A → bool) l x :
  p x = false → x ∈ l → x ∈ delete_first p l.
Proof.
  intros Hx. induction l as [|y l IH]; cbn; [done|].
  intros [->|Hin]%elem_of_cons.
  - rewrite Hx. left.
  - destruct (p y); [done|]. right. auto.
Qed.

Lemma delete_first_snoc {A} (p : A → bool) l x :
  existsb p l = false → p x = true → delete_first p (l ++ [x]) = l.
Proof.
  intros Hl Hx. induction l as [|y l IH]; cbn in *; [by rewrite Hx|].
  apply orb_false_iff in Hl as [-> Hl]. by rewrite IH.
Qed.

(** X20: [follow] and [unfollow] keep the follows table free of duplicates
    and of self-follows, for every caller, target and outcome of the
    commit. *)
Theorem follow_keeps_invariant current_user user_id ok s :
  follows_ok s →
  follows_ok (snd (follow current_user user_id ok s)) ∧
  follows_ok (snd (unfollow current_user user_id ok s)).
Proof.
  intros [Hnd Hself]. unfold follow, unfollow, login_required.
  destruct current_user as [me|]; [|done].
  unfold follow_body, unfollow_body, commit.
  destruct (user_exists user_id s); cbn [negb]; [|done].
  split.
  - destruct (Z.eqb_spec user_id me) as [->|Hne]; [done|].
    destruct (existsb _ _) eqn:Hex; [done|].
    destruct ok; [|done]. cbn. split; cbn.
    + apply NoDup_app. split; [done|]. split; [|apply NoDup_singleton].
      intros f Hin ->%list_elem_of_singleton.
      apply following_spec in Hin. unfold following in Hin. congruence.
    + intros f [Hin| ->%list_elem_of_singleton]%elem_of_app; [auto|]. cbn. congruence.
  - destruct (existsb _ _); [|done]. destruct ok; [|done]. cbn. split; cbn.
    + by apply delete_first_NoDup.
    + intros f Hin%delete_first_elem_of. auto.
Qed.

Lemma follow_keeps_invariant_holds :
  let ann := mkUser 1 "ann" "ann@example.org" "" "" None None in
  let bob := mkUser 2 "bob" "bob@example.org" "" "" None None in
  let s := mkSite [ann; bob] ∅ ∅ [] [] [] in
  follows_ok s ∧
  follows_ok (snd (follow (Some 1%Z) 2 true s)) ∧
  site_follows (snd (follow (Some 1%Z) 2 true s)) = [mkFollow 1 2].
Proof.
  intros ann bob s.
  assert (follows_ok s) as Hs.
  { split; [constructor|]. intros f Hf. inversion Hf. }
  split; [exact Hs|]. split; [|reflexivity].
  exact (proj1 (follow_keeps_invariant (Some 1%Z) 2%Z true s Hs)).
Defined.

(** X21: A follow that goes through and the unfollow after it: the first
    answers with the number of followers raised by one, the second with
    the number there was, and the tables are again what they were. *)
Theorem follow_then_unfollow me u s :
  user_exists u s = true →
  u ≠ me →
  following me u s = false →
  ∃ s1,
    follow (Some me) u true s =
      (Ok (Json 200 [("status", JStr "ok");
                     ("followers_count", JNum (S (followers_count u s)))]), s1) ∧
    following me u s1 = true ∧
    unfollow (Some me) u true s1 =
      (Ok (Json 200 [("status", JStr "ok");
                     ("followers_count", JNum (followers_count u s))]), s).
Proof.
  intros Hu Hne Hf. unfold following in Hf.
  unfold follow, unfollow, login_required, follow_body, unfollow_body, commit.
  rewrite Hu. cbn [negb]. apply Z.eqb_neq in Hne. rewrite Hne, Hf.
  eexists. split; [|split].
  - f_equal. unfold followers_count. cbn.
    rewrite filter_app, length_app. cbn.
    rewrite decide_True by done. cbn. do 6 f_equal. lia.
  - unfold following. cbn. rewrite existsb_app. cbn.
    unfold is_follow at 2. cbn. rewrite !Z.eqb_refl. by rewrite orb_true_r.
  - unfold user_exists in *. cbn. rewrite Hu. cbn.
    rewrite existsb_app. cbn. unfold is_follow at 2. cbn.
    rewrite !Z.eqb_refl. rewrite orb_true_r. unfold with_follows. cbn.
    rewrite delete_first_snoc; [by destruct s|done|].
    unfold is_follow. cbn. by rewrite !Z.eqb_refl.
Qed.

Lemma follow_then_unfollow_holds :
  let ann := mkUser 1 "ann" "ann@example.org" "" "" None None in
  let bob := mkUser 2 "bob" "bob@example.org" "" "" None None in
  let s := mkSite [ann; bob] ∅ ∅ [mkFollow 2 1] [] [] in
  ∃ s1,
    follow (Some 1%Z) 2 true s =
      (Ok (Json 200 [("status", JStr "ok"); ("followers_count", JNum 1)]), s1) ∧
    following 1 2 s1 = true ∧
    unfollow (Some 1%Z) 2 true s1 =
      (Ok (Json 200 [("status", JStr "ok"); ("followers_count", JNum 0)]), s).
Proof.
  intros ann bob s.
  apply (follow_then_unfollow 1%Z 2%Z s); [reflexivity | discriminate | reflexivity].
Defined.

(** X22: What [follow] and [unfollow] can touch: only rows of the follows
    table whose follower is the caller. The rows of every other follower
    and the other tables stay, whatever the target and the outcome; an
    anonymous request changes nothing at all. *)
Theorem follow_touches_own_rows_only current_user user_id ok s :
  let untouched (s' : Site) :=
    site_users s' = site_users s ∧ site_tracks s' = site_tracks s ∧
    site_playlists s' = site_playlists s ∧
    site_favorites s' = site_favorites s ∧
    site_playlist_tracks s' = site_playlist_tracks s ∧
    (current_user = None → s' = s) ∧
    (∀ x, Some (follower_id x) ≠ current_user →
          x ∈ site_follows s' ↔ x ∈ site_follows s) in
  untouched (snd (follow current_user user_id ok s)) ∧
  untouched (snd (unfollow current_user user_id ok s)).
Proof.
  cbv zeta. unfold follow, unfollow, login_required.
  destruct current_user as [me|]; [|done].
  unfold follow_body, unfollow_body, commit.
  destruct (user_exists user_id s); cbn [negb]; [|done].
  split.
  - destruct (Z.eqb user_id me); [done|].
    destruct (existsb _ _); [done|]. destruct ok; [|done]. cbn.
    do 6 (split; [done|]). intros x Hx. split.
    + intros [Hin| ->%list_elem_of_singleton]%elem_of_app; [done|]. by destruct Hx.
    + intros Hin. apply elem_of_app. by left.
  - destruct (existsb _ _); [|done]. destruct ok; [|done]. cbn.
    do 6 (split; [done|]). intros x Hx. split.
    + apply delete_first_elem_of.
    + apply delete_first_keeps. unfold is_follow.
      destruct (Z.eqb_spec (follower_id x) me) as [<-|]; [by destruct Hx|done].
Qed.

(** X23: Under the invariant, an unfollow that commits ends the following,
    and the number of followers it answers with is one less than before
    when the caller was following. Without the invariant this fails: the
    view deletes one row. *)
Theorem unfollow_ends_following me u s :
  follows_ok s →
  user_exists u s = true →
  let s' := snd (unfollow (Some me) u true s) in
  following me u s' = false ∧
  (following me u s = true → S (followers_count u s') = followers_count u s).
Proof.
  intros [Hnd _] Hu. cbv zeta.
  unfold unfollow, login_required, unfollow_body, commit, following, followers_count.
  rewrite Hu. cbn [negb].
  destruct (existsb (is_follow me u) (site_follows s)) eqn:Hex; cbn; [|done].
  induction Hnd as [|x l Hx Hl IH]; cbn in *; [done|].
  destruct (is_follow me u x) eqn:Hfx.
  - apply is_follow_spec in Hfx as ->. cbn. rewrite decide_True by done. cbn.
    split; [|done].
    destruct (existsb (is_follow me u) l) eqn:Hl'; [|done].
    exfalso. apply Hx. apply existsb_exists in Hl' as (f & Hin & ->%is_follow_spec).
    by apply list_elem_of_In.
  - cbn in Hex. cbn. rewrite Hfx. cbn. destruct (IH Hex) as [IH1 IH2].
    split; [done|]. intros _. specialize (IH2 eq_refl).
    destruct (decide (followed_id x = u)); cbn;
      [exact (f_equal S IH2) | exact IH2].
Qed.

Lemma unfollow_ends_following_holds :
  let ann := mkUser 1 "ann" "ann@example.org" "" "" None None in
  let bob := mkUser 2 "bob" "bob@example.org" "" "" None None in
  let s := mkSite [ann; bob] ∅ ∅ [mkFollow 2 1; mkFollow 1 2] [] [] in
  following 1 2 s = true ∧
  following 1 2 (snd (unfollow (Some 1%Z) 2 true s)) = false.
Proof.
  intros ann bob s. split; [reflexivity|].
  apply (unfollow_ends_following 1%Z 2%Z s); [|reflexivity].
  split.
  - apply (bool_decide_unpack _). vm_compute. exact I.
  - intros f Hf. apply list_elem_of_In in Hf.
    destruct Hf as [<-|[<-|[]]]; discriminate.
Defined.

Lemma is_favorite_spec a t f : is_favorite a t f = true ↔ f = mkFavorite a t.
Proof.
  unfold is_favorite. destruct f as [x y]. cbn.
  rewrite andb_true_iff, Z.eqb_eq, Nat.eqb_eq.
  split; [by intros [-> ->] | by intros [= -> ->]].
Qed.

Lemma is_playlist_track_spec p t x :
  is_playlist_track p t x = true ↔ x = mkPlaylistTrack p t.
Proof.
  unfold is_playlist_track. destruct x as [a b]. cbn.
  rewrite andb_true_iff, !Nat.eqb_eq.
  split; [by intros [-> ->] | by intros [= -> ->]].
Qed.

(** X24: [favorite] and [unfavorite] keep the favorites table free of
    duplicates and of favorites of tracks that do not exist, for every
    caller, track and outcome of the commit. *)
Theorem favorite_keeps_invariant current_user track_id ok s :
  favorites_ok s →
  favorites_ok (snd (favorite current_user track_id ok s)) ∧
  favorites_ok (snd (unfavorite current_user track_id ok s)).
Proof.
  intros [Hnd Hex]. unfold favorite, unfavorite, login_required.
  destruct current_user as [me|]; [|done].
  unfold favorite_body, unfavorite_body, commit. split.
  - destruct (site_tracks s !! track_id) as [t|] eqn:Ht; [|done].
    destruct (existsb _ _) eqn:Hfav; [done|].
    destruct ok; [|done]. cbn. split; cbn.
    + apply NoDup_app. split; [done|]. split; [|apply NoDup_singleton].
      intros f Hin ->%list_elem_of_singleton.
      assert (existsb (is_favorite me track_id) (site_favorites s) = true);
        [|congruence].
      apply existsb_exists. exists (mkFavorite me track_id).
      split; [by apply list_elem_of_In | by apply is_favorite_spec].
    + intros f [Hin| ->%list_elem_of_singleton]%elem_of_app; [auto|].
      cbn. by rewrite Ht.
  - destruct (existsb _ _); [|done]. destruct ok; [|done]. cbn. split; cbn.
    + by apply delete_first_NoDup.
    + intros f Hin%delete_first_elem_of. auto.
Qed.

Lemma favorite_keeps_invariant_holds :
  let s := mkSite [] {[ 3 := new_Track 1 "a" "" ]} ∅ [] [] [] in
  favorites_ok (snd (favorite (Some 1%Z) 3 true s)) ∧
  site_favorites (snd (favorite (Some 1%Z) 3 true s)) = [mkFavorite 1 3] ∧
  site_favorites (snd (favorite (Some 1%Z) 4 true s)) = [].
Proof.
  intros s.
  assert (favorites_ok s) as Hs.
  { split; [constructor|]. intros f Hf. inversion Hf. }
  split; [|split; reflexivity].
  exact (proj1 (favorite_keeps_invariant (Some 1%Z) 3 true s Hs)).
Defined.

(** X25: Only the owner of a playlist changes it: when [playlist_add_track]
    changes the table of playlist entries, the caller is logged in and
    owns the playlist, the commit went through, and what changed is one
    new entry at the end. *)
Theorem playlist_changes_imply_owner current_user playlist_id track_id ok s :
  let s' := snd (playlist_add_track current_user playlist_id track_id ok s) in
  site_playlist_tracks s' ≠ site_playlist_tracks s →
  ∃ me, current_user = Some me ∧
        site_playlists s !! playlist_id = Some me ∧
        ok = true ∧
        site_playlist_tracks s' =
          (site_playlist_tracks s ++ [mkPlaylistTrack playlist_id track_id])%list.
Proof.
  cbv zeta. unfold playlist_add_track, login_required.
  destruct current_user as [me|]; [|done].
  unfold playlist_add_track_body, commit.
  destruct (site_playlists s !! playlist_id) as [owner|]; [|done].
  destruct (Z.eqb_spec owner me) as [->|]; [|done]. cbn [negb].
  destruct (existsb _ _); [done|]. destruct ok; [|done]. cbn.
  intros _. by exists me.
Qed.

Lemma playlist_changes_imply_owner_holds :
  let s := mkSite [] ∅ {[ 5 := 1%Z ]} [] [] [] in
  ∃ me, Some 1%Z = Some me ∧
        site_playlists s !! 5 = Some me ∧
        true = true ∧
        site_playlist_tracks (snd (playlist_add_track (Some 1%Z) 5 9 true s)) =
          (site_playlist_tracks s ++ [mkPlaylistTrack 5 9])%list.
Proof.
  intros s.
  apply (playlist_changes_imply_owner (Some 1%Z) 5 9 true s).
  vm_compute. discriminate.
Defined.

(** X26: Asking twice adds once: after a [follow], [favorite] or
    [playlist_add_track] whose commit went through, the same request
    again changes nothing, whatever the outcome of its own commit. *)
Theorem adding_twice_adds_once current_user (u : Z) (t p : nat) ok s :
  let s1 := snd (follow current_user u true s) in
  let s2 := snd (favorite current_user t true s) in
  let s3 := snd (playlist_add_track current_user p t true s) in
  snd (follow current_user u ok s1) = s1 ∧
  snd (favorite current_user t ok s2) = s2 ∧
  snd (playlist_add_track current_user p t ok s3) = s3.
Proof.
  cbv zeta. unfold follow, favorite, playlist_add_track, login_required.
  destruct current_user as [me|]; [|done].
  split; [|split].
  - unfold follow_body, commit.
    destruct (user_exists u s) eqn:Hu; cbn [negb fst snd];
      [|by rewrite ?Hu].
    destruct (Z.eqb u me) eqn:Hme; cbn [fst snd]; [by rewrite ?Hu, ?Hme|].
    destruct (existsb _ _) eqn:Hex; cbn [fst snd]; [by rewrite ?Hu, ?Hme, ?Hex|].
    unfold user_exists in *. cbn. rewrite ?Hu, ?Hme. cbn.
    rewrite existsb_app. cbn. unfold is_follow at 2. cbn.
    rewrite !Z.eqb_refl. by rewrite orb_true_r.
  - unfold favorite_body, commit.
    destruct (site_tracks s !! t) as [x|] eqn:Ht; cbn [fst snd]; [|by rewrite ?Ht].
    destruct (existsb _ _) eqn:Hex; cbn [fst snd]; [by rewrite ?Ht, ?Hex|].
    cbn -[lookup]. rewrite ?Ht. rewrite existsb_app. cbn. unfold is_favorite at 2. cbn.
    rewrite Z.eqb_refl, Nat.eqb_refl. by rewrite orb_true_r.
  - unfold playlist_add_track_body, commit.
    destruct (site_playlists s !! p) as [owner|] eqn:Hp; cbn [fst snd];
      [|by rewrite ?Hp].
    destruct (Z.eqb owner me) eqn:Hme; cbn [negb fst snd]; [|by rewrite ?Hp, ?Hme].
    destruct (existsb _ _) eqn:Hex; cbn [negb fst snd]; [by rewrite ?Hp, ?Hme, ?Hex|].
    cbn -[lookup]. rewrite ?Hp, ?Hme. cbn. rewrite existsb_app. cbn.
    unfold is_playlist_track at 2. cbn.
    rewrite !Nat.eqb_refl. by rewrite orb_true_r.
Qed.
